(** * Gunnery task models: execution materialisation and parameter resolution

    A shallow embedding of [gunnery/task/models.py]: the [Execution] save
    path that materialises the per-command, per-server plan, the dispatch
    entry point [start], the live-log reader of a unit, and the
    [ParameterParser] that resolves [${name}] placeholders. *)

From Stdlib Require Import List ZArith Bool Ascii String Lia.
From Stdlib Require Import DecimalString.
From Stdlib Require Import Sorted Permutation.
Import ListNotations.

Local Open Scope list_scope.
Local Open Scope Z_scope.

(** ** Python strings *)

(** A Python string is a sequence of characters. *)
Definition text := list ascii.

Definition py (s : string) : text := list_ascii_of_string s.

Module Str.

(** [s.startswith(p)] *)
Fixpoint starts_with (p s : text) : bool :=
  match p, s with
  | [], _ => true
  | _ :: _, [] => false
  | a :: p', b :: s' => Ascii.eqb a b && starts_with p' s'
  end.

(** The scan of [str.replace] for a non-empty [old]: leftmost occurrence
    first, the text inserted for it is not looked at again, the scan goes
    on after the occurrence.  [fuel] bounds the characters still to scan. *)
Fixpoint replace_from (fuel : nat) (old new s : text) : text :=
  match fuel with
  | O => s
  | S fuel' =>
      match s with
      | [] => []
      | c :: s' =>
          if starts_with old s
          then new ++ replace_from fuel' old new (skipn (List.length old) s)
          else c :: replace_from fuel' old new s'
      end
  end.

(** [s.replace(old, new)]: every non-overlapping occurrence of [old],
    scanning from the left.  With an empty [old] Python puts [new] before
    every character and at the end. *)
Definition replace (s old new : text) : text :=
  match old with
  | [] => new ++ flat_map (fun c => c :: new) s
  | _ :: _ => replace_from (List.length s) old new s
  end.

(** [sep.join(parts)] *)
Fixpoint join (sep : text) (parts : list text) : text :=
  match parts with
  | [] => []
  | [p] => p
  | p :: rest => p ++ sep ++ join sep rest
  end.

(** [old in s] *)
Fixpoint contains (old s : text) : bool :=
  match s with
  | [] => starts_with old []
  | _ :: s' => starts_with old s || contains old s'
  end.

(** [str(n)] for an integer. *)
Definition of_int (n : Z) : text := py (NilZero.string_of_int (Z.to_int n)).

End Str.

(** ** Referenced entities *)

(** Modelled from the spec: [Application] is declared in [core.models];
    the parser reads its name. *)
Record Application := { application_name : text }.

(** Modelled from the spec: [Server] is declared in [core.models]; each
    server carries a set of role identifiers, a many-to-many relation. *)
Record Server := {
  server_id : Z;
  server_roles : list Z   (* rows of the server/role relation *)
}.

(** Modelled from the spec: [Environment] is declared in [core.models], a
    named collection of servers, reached as [environment.servers]. *)
Record Environment := {
  environment_name : text;
  environment_servers : list Server
}.

(** Modelled from the spec: the user model is the one of the settings; the
    parser reads the e-mail address. *)
Record User := { user_email : text }.

(** ** Task definition *)

Record TaskCommand := {
  tc_command : text;
  tc_roles : list Z;      (* rows of the command/role many-to-many relation *)
  tc_order : Z
}.

Record Task := {
  task_name : text;
  task_application : Application;
  task_commands : list TaskCommand   (* reverse relation [commands] *)
}.

(** [order_by('order')]: ascending in [order]; rows of equal rank keep the
    order of the relation. *)
Fixpoint insert_by_order (c : TaskCommand) (l : list TaskCommand) : list TaskCommand :=
  match l with
  | [] => [c]
  | d :: l' =>
      if tc_order c <=? tc_order d then c :: l else d :: insert_by_order c l'
  end.

Definition order_by_order (l : list TaskCommand) : list TaskCommand :=
  fold_right insert_by_order [] l.

Definition commands_ordered (self : Task) : list TaskCommand :=
  order_by_order (task_commands self).

(** ** Execution records and the store *)

Record Execution := {
  execution_id : option Z;           (* [None] until the first save *)
  execution_task : Task;
  execution_time_created : Z;        (* seconds since the epoch, UTC; read
                                        once the object has its key *)
  execution_environment : Environment;
  execution_user : User;
  execution_status : Z
}.

Record ExecutionParameter := {
  ep_execution : option Z;
  ep_name : text;
  ep_value : text
}.

Record ExecutionCommand := {
  ec_id : Z;
  ec_execution : option Z;
  ec_command : text
}.

Record ExecutionCommandServer := {
  ecs_id : Z;
  ecs_execution_command : Z;
  ecs_status : Z;
  ecs_return_code : option Z;
  ecs_server : Z;
  ecs_output : text
}.

Record ExecutionLiveLog := {
  ll_execution : option Z;
  ll_event : text;
  ll_data : text
}.

(** The tables this module writes or reads, and the worker queue that
    [start] feeds. *)
Record Store := {
  executions : list Execution;
  execution_parameters : list ExecutionParameter;
  execution_commands : list ExecutionCommand;
  execution_command_roles : list (Z * Z);
  execution_command_servers : list ExecutionCommandServer;
  execution_live_logs : list ExecutionLiveLog;
  worker_queue : list (option Z)
}.

Definition empty_store : Store :=
  {| executions := []; execution_parameters := []; execution_commands := [];
     execution_command_roles := []; execution_command_servers := [];
     execution_live_logs := []; worker_queue := [] |}.

Definition with_executions (st : Store) (l : list Execution) : Store :=
  {| executions := l;
     execution_parameters := execution_parameters st;
     execution_commands := execution_commands st;
     execution_command_roles := execution_command_roles st;
     execution_command_servers := execution_command_servers st;
     execution_live_logs := execution_live_logs st;
     worker_queue := worker_queue st |}.

Definition with_execution_commands (st : Store) (l : list ExecutionCommand) : Store :=
  {| executions := executions st;
     execution_parameters := execution_parameters st;
     execution_commands := l;
     execution_command_roles := execution_command_roles st;
     execution_command_servers := execution_command_servers st;
     execution_live_logs := execution_live_logs st;
     worker_queue := worker_queue st |}.

Definition with_execution_command_roles (st : Store) (l : list (Z * Z)) : Store :=
  {| executions := executions st;
     execution_parameters := execution_parameters st;
     execution_commands := execution_commands st;
     execution_command_roles := l;
     execution_command_servers := execution_command_servers st;
     execution_live_logs := execution_live_logs st;
     worker_queue := worker_queue st |}.

Definition with_execution_command_servers (st : Store)
    (l : list ExecutionCommandServer) : Store :=
  {| executions := executions st;
     execution_parameters := execution_parameters st;
     execution_commands := execution_commands st;
     execution_command_roles := execution_command_roles st;
     execution_command_servers := l;
     execution_live_logs := execution_live_logs st;
     worker_queue := worker_queue st |}.

Definition with_worker_queue (st : Store) (l : list (option Z)) : Store :=
  {| executions := executions st;
     execution_parameters := execution_parameters st;
     execution_commands := execution_commands st;
     execution_command_roles := execution_command_roles st;
     execution_command_servers := execution_command_servers st;
     execution_live_logs := execution_live_logs st;
     worker_queue := l |}.

Definition option_Z_eqb (a b : option Z) : bool :=
  match a, b with
  | Some x, Some y => x =? y
  | None, None => true
  | _, _ => false
  end.

(** Primary keys come from the table's sequence: positive, and above every
    key in use. *)
Definition fresh_id (ids : list Z) : Z := 1 + fold_right Z.max 0 ids.

Definition execution_pks (st : Store) : list Z :=
  flat_map (fun e => match execution_id e with Some i => [i] | None => [] end)
           (executions st).

(** Reverse relations. *)
Definition execution_commands_of (st : Store) (pk : option Z) : list ExecutionCommand :=
  filter (fun ec => option_Z_eqb (ec_execution ec) pk) (execution_commands st).

Definition execution_command_servers_of (st : Store) (pk : Z)
    : list ExecutionCommandServer :=
  filter (fun u => ecs_execution_command u =? pk) (execution_command_servers st).

Definition parameters_all (st : Store) (e : Execution) : list ExecutionParameter :=
  filter (fun p => option_Z_eqb (ep_execution p) (execution_id e))
         (execution_parameters st).

(** [order_by('-time_created')]: descending in [time_created]; rows of equal
    time keep the order of the table. *)
Fixpoint insert_by_time_created_desc (e : Execution) (l : list Execution)
    : list Execution :=
  match l with
  | [] => [e]
  | d :: l' =>
      if execution_time_created d <=? execution_time_created e
      then e :: l else d :: insert_by_time_created_desc e l'
  end.

Definition order_by_time_created_desc (l : list Execution) : list Execution :=
  fold_right insert_by_time_created_desc [] l.

(** ** The query of [_create_execution_commands_servers] *)

(** [servers.filter(roles__in=roles)]: the filter goes through the
    server/role relation with a join, so the result has one row per
    (server, role) pair whose role is in [roles]; nothing removes repeated
    servers (there is no [distinct()]). *)
Definition servers_filter_roles_in (servers : list Server) (roles : list Z)
    : list Server :=
  flat_map
    (fun s => flat_map (fun r => if existsb (Z.eqb r) roles then [s] else [])
                       (server_roles s))
    servers.

(** The servers whose role set meets [roles], each once. *)
Definition role_sets_intersect (s : Server) (roles : list Z) : bool :=
  existsb (fun r => existsb (Z.eqb r) roles) (server_roles s).

Definition matching_servers (servers : list Server) (roles : list Z) : list Server :=
  filter (fun s => role_sets_intersect s roles) servers.

(** ** Row operations of the model base class *)

(** Python truth value of a primary key: [None] and [0] are false. *)
Definition pk_truthy (pk : option Z) : bool :=
  match pk with
  | None => false
  | Some n => negb (n =? 0)
  end.

Definition set_execution_id (e : Execution) (pk : option Z) (created : Z) : Execution :=
  {| execution_id := pk;
     execution_task := execution_task e;
     execution_time_created := created;
     execution_environment := execution_environment e;
     execution_user := execution_user e;
     execution_status := execution_status e |}.

(** [models.Model.save] for an [Execution]: an object without a key is
    inserted under a fresh key; one with a key updates its row, or is
    inserted under that key when the table has no such row.  An insert stamps
    [time_created] ([auto_now_add]) with the clock value [now]. *)
Definition Model_save_Execution (now : Z) (st : Store) (self : Execution)
    : Execution * Store :=
  match execution_id self with
  | None =>
      let self' := set_execution_id self (Some (fresh_id (execution_pks st))) now in
      (self', with_executions st (executions st ++ [self']))
  | Some i =>
      if existsb (fun r => option_Z_eqb (execution_id r) (Some i)) (executions st)
      then (self,
            with_executions st
              (map (fun r => if option_Z_eqb (execution_id r) (Some i) then self else r)
                   (executions st)))
      else
        let self' := set_execution_id self (Some i) now in
        (self', with_executions st (executions st ++ [self']))
  end.

(** First [save()] of a new [ExecutionCommand]: an insert. *)
Definition ExecutionCommand_insert (st : Store) (execution : option Z) (command : text)
    : ExecutionCommand * Store :=
  let row := {| ec_id := fresh_id (map ec_id (execution_commands st));
                ec_execution := execution;
                ec_command := command |} in
  (row, with_execution_commands st (execution_commands st ++ [row])).

(** [save()] of an [ExecutionCommand] that has a key: an update of its row. *)
Definition ExecutionCommand_update (st : Store) (row : ExecutionCommand) : Store :=
  with_execution_commands st
    (map (fun r => if ec_id r =? ec_id row then row else r) (execution_commands st)).

(** [execution_command.roles.add(role)]: a row of the relation, unless it is
    there already. *)
Definition ExecutionCommand_roles_add (st : Store) (ec : ExecutionCommand) (role : Z)
    : Store :=
  if existsb (fun p => (fst p =? ec_id ec) && (snd p =? role))
             (execution_command_roles st)
  then st
  else with_execution_command_roles st (execution_command_roles st ++ [(ec_id ec, role)]).

(** ** [class Execution] *)

Module Execution.

Definition PENDING : Z := 3.
Definition RUNNING : Z := 0.
Definition SUCCESS : Z := 1.
Definition FAILED : Z := 2.

(** [ExecutionCommandServer(execution_command=..., server=...).save()]:
    the other columns take their defaults. *)
Definition ExecutionCommandServer_insert (st : Store) (execution_command : ExecutionCommand)
    (server : Server) : Store :=
  let row := {| ecs_id := fresh_id (map ecs_id (execution_command_servers st));
                ecs_execution_command := ec_id execution_command;
                ecs_status := PENDING;
                ecs_return_code := None;
                ecs_server := server_id server;
                ecs_output := [] |} in
  with_execution_command_servers st (execution_command_servers st ++ [row]).

Definition _create_execution_commands_servers (st : Store) (self : Execution)
    (command : TaskCommand) (execution_command : ExecutionCommand) : Store :=
  fold_left
    (fun st server => ExecutionCommandServer_insert st execution_command server)
    (servers_filter_roles_in
       (environment_servers (execution_environment self)) (tc_roles command))
    st.

Definition _create_execution_commands (st : Store) (self : Execution)
    (command : TaskCommand) : Store :=
  let parsed_command := tc_command command in
  let (execution_command, st) :=
    ExecutionCommand_insert st (execution_id self) parsed_command in
  let st :=
    fold_left (fun st role => ExecutionCommand_roles_add st execution_command role)
              (tc_roles command) st in
  let st := ExecutionCommand_update st execution_command in
  _create_execution_commands_servers st self command execution_command.

(** [save]: returns the object (it has its key afterwards) and the store. *)
Definition save (now : Z) (st : Store) (self : Execution) : Execution * Store :=
  let is_new := negb (pk_truthy (execution_id self)) in
  let (self, st) := Model_save_Execution now st self in
  if negb is_new then (self, st)
  else
    (self,
     fold_left (fun st command => _create_execution_commands st self command)
               (commands_ordered (execution_task self)) st).

(** Modelled from the spec: [ExecutionTask().delay(...)] lives in
    [backend.tasks]; the Worker Queue's [enqueue] puts one unit of
    asynchronous work, here the execution's key, on the queue. *)
Definition ExecutionTask_delay (st : Store) (execution_id : option Z) : Store :=
  with_worker_queue st (worker_queue st ++ [execution_id]).

Definition start (st : Store) (self : Execution) : Store :=
  ExecutionTask_delay st (execution_id self).

(** [get_inline_by_query]: the keyword filters it is called with are a
    condition [kwargs] on the row; [prefetch_related] changes no result. *)
Definition get_inline_by_query (st : Store) (kwargs : Execution -> bool)
    : list Execution :=
  firstn 4 (order_by_time_created_desc (filter kwargs (executions st))).

End Execution.

(** ** The declared schema, as far as attribute access depends on it *)

(** The models of this module with their fields as declared; for the
    referenced models only the name is known here, they are the targets of
    relations. *)

Inductive model :=
  | M_Task | M_TaskParameter | M_TaskCommand
  | M_Execution | M_ExecutionParameter | M_ExecutionCommand
  | M_ExecutionCommandServer | M_ExecutionLiveLog
  (* referenced models, declared outside this module *)
  | M_Application | M_ServerRole | M_Environment | M_Server | M_User.

Definition model_eqb (a b : model) : bool :=
  match a, b with
  | M_Task, M_Task | M_TaskParameter, M_TaskParameter
  | M_TaskCommand, M_TaskCommand | M_Execution, M_Execution
  | M_ExecutionParameter, M_ExecutionParameter
  | M_ExecutionCommand, M_ExecutionCommand
  | M_ExecutionCommandServer, M_ExecutionCommandServer
  | M_ExecutionLiveLog, M_ExecutionLiveLog
  | M_Application, M_Application | M_ServerRole, M_ServerRole
  | M_Environment, M_Environment | M_Server, M_Server | M_User, M_User => true
  | _, _ => false
  end.

Inductive field_kind :=
  | Column
  | ForeignKey (to : model) (related_name : option string)
  | ManyToManyField (to : model) (related_name : option string).

Definition declared_fields (m : model) : list (string * field_kind) :=
  (match m with
   | M_Task =>
       [("name", Column); ("description", Column);
        ("application", ForeignKey M_Application (Some "tasks"))]
   | M_TaskParameter =>
       [("task", ForeignKey M_Task (Some "parameters")); ("name", Column);
        ("default_value", Column); ("description", Column); ("order", Column)]
   | M_TaskCommand =>
       [("task", ForeignKey M_Task (Some "commands")); ("command", Column);
        ("roles", ManyToManyField M_ServerRole (Some "commands")); ("order", Column)]
   | M_Execution =>
       [("task", ForeignKey M_Task (Some "executions")); ("time_created", Column);
        ("time_start", Column); ("time_end", Column); ("time", Column);
        ("environment", ForeignKey M_Environment (Some "executions"));
        ("user", ForeignKey M_User (Some "executions")); ("status", Column)]
   | M_ExecutionParameter =>
       [("execution", ForeignKey M_Execution (Some "parameters")); ("name", Column);
        ("value", Column)]
   | M_ExecutionCommand =>
       [("execution", ForeignKey M_Execution (Some "commands")); ("command", Column);
        ("roles", ManyToManyField M_ServerRole None)]
   | M_ExecutionCommandServer =>
       [("execution_command", ForeignKey M_ExecutionCommand (Some "servers"));
        ("status", Column); ("time_start", Column); ("time_end", Column);
        ("time", Column); ("return_code", Column);
        ("server", ForeignKey M_Server None); ("output", Column)]
   | M_ExecutionLiveLog =>
       [("execution", ForeignKey M_Execution (Some "live_logs")); ("event", Column);
        ("data", Column)]
   | M_Application | M_ServerRole | M_Environment | M_Server | M_User => []
   end)%string.

Definition task_models : list model :=
  [M_Task; M_TaskParameter; M_TaskCommand; M_Execution; M_ExecutionParameter;
   M_ExecutionCommand; M_ExecutionCommandServer; M_ExecutionLiveLog].

Definition model_lower_name (m : model) : string :=
  (match m with
   | M_Task => "task" | M_TaskParameter => "taskparameter"
   | M_TaskCommand => "taskcommand" | M_Execution => "execution"
   | M_ExecutionParameter => "executionparameter"
   | M_ExecutionCommand => "executioncommand"
   | M_ExecutionCommandServer => "executioncommandserver"
   | M_ExecutionLiveLog => "executionlivelog"
   | M_Application => "application" | M_ServerRole => "serverrole"
   | M_Environment => "environment" | M_Server => "server" | M_User => "user"
   end)%string.

(** The name under which the rows of [from] appear on the model a relation
    points to: [related_name], or [<model>_set]. *)
Definition accessor_name (from : model) (related_name : option string) : string :=
  match related_name with
  | Some n => n
  | None => (model_lower_name from ++ "_set")%string
  end.

(** The related managers an instance of [m] has: one per relation of a
    model that points to [m], with the model and field it comes from. *)
Definition related_managers (m : model) : list (string * (model * string)) :=
  flat_map
    (fun from =>
       flat_map
         (fun f =>
            match snd f with
            | Column => []
            | ForeignKey to rn | ManyToManyField to rn =>
                if model_eqb to m then [(accessor_name from rn, (from, fst f))] else []
            end)
         (declared_fields from))
    task_models.

Definition related_manager (m : model) (name : string) : option (model * string) :=
  match find (fun a => String.eqb (fst a) name) (related_managers m) with
  | Some a => Some (snd a)
  | None => None
  end.

Definition has_field (m : model) (name : string) : bool :=
  String.eqb name "id" || existsb (fun f => String.eqb (fst f) name) (declared_fields m).

Inductive exn := AttributeError | FieldError.

(** [manager.values_list(column, flat=True)] for the related rows of the
    object with key [pk]: [FieldError] when the model has no such field.
    The text columns of the tables of the store are read; no caller asks for
    another one. *)
Definition values_list_flat (st : Store) (m : model) (pk : Z) (column : string)
    : exn + list text :=
  if negb (has_field m column) then inl FieldError
  else
    inr (match m with
         | M_ExecutionLiveLog =>
             let rows := filter (fun l => option_Z_eqb (ll_execution l) (Some pk))
                                (execution_live_logs st) in
             if String.eqb column "event" then map ll_event rows
             else if String.eqb column "data" then map ll_data rows
             else []
         | M_ExecutionCommandServer =>
             if String.eqb column "output"
             then map ecs_output (execution_command_servers_of st pk) else []
         | M_ExecutionCommand =>
             if String.eqb column "command"
             then map ec_command (execution_commands_of st (Some pk)) else []
         | _ => []
         end).

(** ** [class ExecutionCommandServer] *)

Module ExecutionCommandServer.

(** [self.live_logs] is an attribute only if some relation that points to
    [ExecutionCommandServer] is named so; otherwise the access raises
    [AttributeError]. *)
Definition get_live_log_output (st : Store) (self : ExecutionCommandServer)
    : exn + text :=
  match related_manager M_ExecutionCommandServer "live_logs" with
  | None => inl AttributeError
  | Some (from, _) =>
      match values_list_flat st from (ecs_id self) "output" with
      | inl e => inl e
      | inr live_logs => inr (Str.join [] live_logs)
      end
  end.

End ExecutionCommandServer.

(** ** [class ParameterParser] *)

Module ParameterParser.

(** ['${%s}' % name] *)
Definition parameter_format (name : text) : text := py "${" ++ name ++ py "}".

(** The parser object: the dictionary [global_parameter_values] is kept
    as its list of items, in the order the dictionary iterates them. *)
Record t := {
  execution : Execution;
  global_parameter_values : list (text * text)
}.

(** The attribute [time_created] of the execution object, in seconds:
    [auto_now_add] stamps it at the insert that gives the object its key;
    on an object that has no key yet it is [None]. *)
Definition time_created (execution : Execution) : option Z :=
  match execution_id execution with
  | None => None
  | Some _ => Some (execution_time_created execution)
  end.

(** [__init__]: the dictionary is built from the execution;
    [self.execution.time_created.utctimetuple()] raises [AttributeError]
    when [time_created] is [None], and no parser is made. *)
Definition init (execution : Execution) : exn + t :=
  match time_created execution with
  | None => inl AttributeError
  | Some seconds =>
      inr {| execution := execution;
             global_parameter_values :=
               [ (py "gun_application",
                  application_name (task_application (execution_task execution)));
                 (py "gun_environment",
                  environment_name (execution_environment execution));
                 (py "gun_task", task_name (execution_task execution));
                 (py "gun_user", user_email (execution_user execution));
                 (py "gun_time", Str.of_int seconds) ] |}
  end.

Definition _process_global_parameters (self : t) (cmd : text) : text :=
  fold_left
    (fun cmd item => let (name, value) := item : text * text in
                     Str.replace cmd (parameter_format name) value)
    (global_parameter_values self) cmd.

Definition _process_parameters (st : Store) (self : t) (cmd : text) : text :=
  let execution_params := parameters_all st (execution self) in
  fold_left
    (fun cmd param =>
       Str.replace cmd (parameter_format (ep_name param)) (ep_value param))
    execution_params cmd.

Definition process (st : Store) (self : t) (cmd : text) : text :=
  let cmd := _process_global_parameters self cmd in
  let cmd := _process_parameters st self cmd in
  cmd.

End ParameterParser.

(** ** Vocabulary of the statements *)

(** [c] does not occur in [s]. *)
Definition lacks (c : ascii) (s : text) : bool :=
  forallb (fun d => negb (Ascii.eqb d c)) s.

(** A parameter name without the characters that delimit a placeholder;
    every name of the name-token grammar is one. *)
Definition plain_name (n : text) : bool := lacks "$" n && lacks "}" n.

(** The parameters in the order [process] substitutes them, as
    (name, value) pairs: the globals, then the rows of the execution. *)
Definition resolution_order (st : Store) (self : ParameterParser.t) : list (text * text) :=
  ParameterParser.global_parameter_values self
  ++ map (fun p => (ep_name p, ep_value p))
         (parameters_all st (ParameterParser.execution self)).

(** All names of a list of (name, value) pairs are plain. *)
Definition plain_names (l : list (text * text)) : bool :=
  forallb plain_name (map fst l).

(** One [replace] per pair, in list order. *)
Definition substitute (l : list (text * text)) (cmd : text) : text :=
  fold_left
    (fun cmd nv => Str.replace cmd (ParameterParser.parameter_format (fst nv)) (snd nv))
    l cmd.

(** Referential integrity of the plan tables: a command row belongs to an
    execution of the store, a unit to a command row of the store. *)
Definition store_consistent (st : Store) : bool :=
  forallb
    (fun ec => match ec_execution ec with
               | Some i => existsb (Z.eqb i) (execution_pks st)
               | None => false
               end)
    (execution_commands st)
  && forallb
       (fun u => existsb (Z.eqb (ecs_execution_command u))
                         (map ec_id (execution_commands st)))
       (execution_command_servers st).

(** What was materialised for the execution with key [pk]: per command row,
    in row order, its text and the servers of its units. *)
Definition materialised_plan (st : Store) (pk : option Z) : list (text * list Z) :=
  map (fun ec => (ec_command ec,
                  map ecs_server (execution_command_servers_of st (ec_id ec))))
      (execution_commands_of st pk).

(** The command row that [_create_execution_commands] inserts. *)
Definition command_row (st : Store) (self : Execution) (command : TaskCommand)
    : ExecutionCommand :=
  {| ec_id := fresh_id (map ec_id (execution_commands st));
     ec_execution := execution_id self;
     ec_command := tc_command command |}.

(** The servers the query of [_create_execution_commands_servers] yields. *)
Definition queried_servers (self : Execution) (command : TaskCommand) : list Z :=
  map server_id
      (servers_filter_roles_in
         (environment_servers (execution_environment self)) (tc_roles command)).

(** The orders of the two ordered queries. *)
Definition rank_le (a b : TaskCommand) : Prop := tc_order a <= tc_order b.

Definition newer_or_same (a b : Execution) : Prop :=
  execution_time_created b <= execution_time_created a.

(** The roles related to the command row with key [pk], in row order. *)
Definition roles_of (st : Store) (pk : Z) : list Z :=
  map snd (filter (fun p => fst p =? pk) (execution_command_roles st)).

(** Per command row of the execution with key [pk], its text and its roles. *)
Definition materialised_roles (st : Store) (pk : option Z) : list (text * list Z) :=
  map (fun ec => (ec_command ec, roles_of st (ec_id ec)))
      (execution_commands_of st pk).

(** Referential integrity of the role relation of the command rows. *)
Definition roles_consistent (st : Store) : bool :=
  forallb (fun p => existsb (Z.eqb (fst p)) (map ec_id (execution_commands st)))
          (execution_command_roles st).

(** A unit as it is created: pending, no return code, no output. *)
Definition initial_unit (u : ExecutionCommandServer) : bool :=
  (ecs_status u =? Execution.PENDING)
  && match ecs_return_code u with None => true | Some _ => false end
  && match ecs_output u with [] => true | _ :: _ => false end.

(** Roles a server shares with a command. *)
Definition shared_roles (s : Server) (roles : list Z) : list Z :=
  filter (fun r => existsb (Z.eqb r) roles) (server_roles s).

(** The row of the executions table with key [pk], if any. *)
Definition execution_by_pk (st : Store) (pk : option Z) : option Execution :=
  find (fun r => option_Z_eqb (execution_id r) pk) (executions st).

(** [st'] is [st] with rows added at the end of the three plan tables, and
    nothing else changed. *)
Definition plan_extends (st st' : Store) (rows : list ExecutionCommand)
    (units : list ExecutionCommandServer) (roles : list (Z * Z)) : Prop :=
  execution_commands st' = execution_commands st ++ rows
  /\ execution_command_servers st' = execution_command_servers st ++ units
  /\ execution_command_roles st' = execution_command_roles st ++ roles
  /\ executions st' = executions st
  /\ execution_parameters st' = execution_parameters st
  /\ execution_live_logs st' = execution_live_logs st
  /\ worker_queue st' = worker_queue st.

(** ** Concrete inputs *)

Module Sample.

Definition web : Z := 1.
Definition db : Z := 2.

Definition deploy : TaskCommand :=
  {| tc_command := py "deploy ${gun_task} to ${env}";
     tc_roles := [web; db]; tc_order := 1 |}.

Definition backup : TaskCommand :=
  {| tc_command := py "backup"; tc_roles := [7]; tc_order := 2 |}.

Definition release : Task :=
  {| task_name := py "release";
     task_application := {| application_name := py "shop" |};
     task_commands := [backup; deploy] |}.

(** One server that carries both roles of [deploy], one that carries one. *)
Definition production : Environment :=
  {| environment_name := py "production";
     environment_servers :=
       [ {| server_id := 10; server_roles := [web; db] |};
         {| server_id := 11; server_roles := [db] |} ] |}.

(** One server, both roles. *)
Definition staging : Environment :=
  {| environment_name := py "staging";
     environment_servers := [ {| server_id := 20; server_roles := [web; db] |} ] |}.

Definition new_execution (env : Environment) : Execution :=
  {| execution_id := None;
     execution_task := release;
     execution_time_created := 0;
     execution_environment := env;
     execution_user := {| user_email := py "ops@example.org" |};
     execution_status := Execution.PENDING |}.

Definition saved_execution (status : Z) : Execution :=
  {| execution_id := Some 1;
     execution_task := release;
     execution_time_created := 1400000000;
     execution_environment := production;
     execution_user := {| user_email := py "ops@example.org" |};
     execution_status := status |}.

Definition with_parameters (l : list (string * string)) : Store :=
  {| executions := [saved_execution Execution.PENDING];
     execution_parameters :=
       map (fun nv => {| ep_execution := Some 1;
                         ep_name := py (fst nv); ep_value := py (snd nv) |}) l;
     execution_commands := [];
     execution_command_roles := [];
     execution_command_servers := [];
     execution_live_logs := [];
     worker_queue := [] |}.

(** The parser that [ParameterParser(saved_execution PENDING)] is. *)
Definition parser : ParameterParser.t :=
  {| ParameterParser.execution := saved_execution Execution.PENDING;
     ParameterParser.global_parameter_values :=
       [ (py "gun_application", py "shop");
         (py "gun_environment", py "production");
         (py "gun_task", py "release");
         (py "gun_user", py "ops@example.org");
         (py "gun_time", py "1400000000") ] |}.

(** The parser of the execution that the first save, at time 5 into the
    empty store, returns for [new_execution production]. *)
Definition created_parser : ParameterParser.t :=
  {| ParameterParser.execution :=
       fst (Execution.save 5 empty_store (new_execution production));
     ParameterParser.global_parameter_values :=
       [ (py "gun_application", py "shop");
         (py "gun_environment", py "production");
         (py "gun_task", py "release");
         (py "gun_user", py "ops@example.org");
         (py "gun_time", py "5") ] |}.

Definition unit_1 : ExecutionCommandServer :=
  {| ecs_id := 1; ecs_execution_command := 1; ecs_status := Execution.RUNNING;
     ecs_return_code := None; ecs_server := 10; ecs_output := [] |}.

Definition with_live_log : Store :=
  {| executions := [saved_execution Execution.RUNNING];
     execution_parameters := [];
     execution_commands :=
       [ {| ec_id := 1; ec_execution := Some 1; ec_command := py "backup" |} ];
     execution_command_roles := [];
     execution_command_servers := [unit_1];
     execution_live_logs :=
       [ {| ll_execution := Some 1; ll_event := py "command_output";
            ll_data := py "done" |} ];
     worker_queue := [] |}.

(** Three servers, none with two roles of one command. *)
Definition cluster : Environment :=
  {| environment_name := py "cluster";
     environment_servers :=
       [ {| server_id := 30; server_roles := [web; 5] |};
         {| server_id := 31; server_roles := [db] |};
         {| server_id := 32; server_roles := [9] |} ] |}.

Definition execution_at (pk created : Z) (env : Environment) : Execution :=
  {| execution_id := Some pk;
     execution_task := release;
     execution_time_created := created;
     execution_environment := env;
     execution_user := {| user_email := py "ops@example.org" |};
     execution_status := Execution.SUCCESS |}.

(** Six executions, five of them on [production]. *)
Definition history : Store :=
  {| executions :=
       [ execution_at 1 10 production; execution_at 2 50 production;
         execution_at 3 30 staging; execution_at 4 20 production;
         execution_at 5 40 production; execution_at 6 60 production ];
     execution_parameters := [];
     execution_commands := [];
     execution_command_roles := [];
     execution_command_servers := [];
     execution_live_logs := [];
     worker_queue := [] |}.

Definition on_production (e : Execution) : bool :=
  match environment_servers (execution_environment e) with
  | s :: _ => server_id s =? 10
  | [] => false
  end.

End Sample.

(** * Facts about [str.replace] *)

Module StrFacts.
Import Str.

Lemma starts_with_app (p s r : text) :
  starts_with p s = true -> starts_with p (s ++ r) = true.
Proof.
  revert s; induction p as [|a p IH]; intros [|b s]; simpl; try easy.
  intros H; apply andb_true_iff in H as [-> H]; simpl; auto.
Qed.

Lemma starts_with_self (p r : text) : starts_with p (p ++ r) = true.
Proof.
  induction p as [|a p IH]; simpl; [reflexivity|].
  now rewrite Ascii.eqb_refl.
Qed.

Lemma starts_with_length (p s : text) :
  starts_with p s = true -> (List.length p <= List.length s)%nat.
Proof.
  revert s; induction p as [|a p IH]; intros [|b s]; simpl; try easy; try lia.
  intros H; apply andb_true_iff in H as [_ H]; apply IH in H; lia.
Qed.

Lemma skipn_app_le (n : nat) (s r : text) :
  (n <= List.length s)%nat -> skipn n (s ++ r) = skipn n s ++ r.
Proof.
  revert s; induction n as [|n IH]; intros [|b s]; simpl; try easy; try lia.
  intros H; apply IH; lia.
Qed.

Lemma skipn_length_le (n : nat) (s : text) :
  (List.length (skipn n s) <= List.length s)%nat.
Proof. rewrite length_skipn; lia. Qed.

(** Any fuel that covers the text gives the same scan. *)
Lemma replace_from_fuel (old new : text) :
  old <> [] ->
  forall f1 f2 s,
    (List.length s <= f1)%nat -> (List.length s <= f2)%nat ->
    replace_from f1 old new s = replace_from f2 old new s.
Proof.
  intros Hold; induction f1 as [|f1 IH]; intros f2 s H1 H2.
  - destruct s; [|simpl in H1; lia]. now destruct f2.
  - destruct f2 as [|f2].
    + destruct s; [reflexivity | simpl in H2; lia].
    + destruct s as [|c s]; [reflexivity|].
      simpl in H1, H2. cbn [replace_from].
      destruct (starts_with old (c :: s)).
      * f_equal. destruct old as [|o old]; [congruence|].
        cbn [List.length skipn].
        pose proof (skipn_length_le (List.length old) s).
        apply IH; lia.
      * f_equal. apply IH; lia.
Qed.

Lemma replace_nil (old new : text) : old <> [] -> replace [] old new = [].
Proof. destruct old; [congruence | reflexivity]. Qed.

(** The scan at a position where [old] does not start. *)
Lemma replace_miss (old new : text) (c : ascii) (s : text) :
  starts_with old (c :: s) = false ->
  replace (c :: s) old new = c :: replace s old new.
Proof.
  intros H. destruct old as [|o old]; [discriminate|].
  unfold replace. cbn [List.length replace_from]. now rewrite H.
Qed.

(** The scan at a position where [old] starts. *)
Lemma replace_hit (old new : text) (c : ascii) (s : text) :
  old <> [] ->
  starts_with old (c :: s) = true ->
  replace (c :: s) old new = new ++ replace (skipn (List.length old) (c :: s)) old new.
Proof.
  intros Hold H. destruct old as [|o old]; [congruence|].
  unfold replace. cbn [List.length replace_from]. rewrite H. f_equal.
  cbn [skipn].
  apply replace_from_fuel; [easy | apply skipn_length_le | lia].
Qed.

(** An occurrence at the head of the text is replaced and the scan goes
    on behind it, without a look at the inserted text. *)
Lemma replace_head (old new r : text) :
  old <> [] -> replace (old ++ r) old new = new ++ replace r old new.
Proof.
  intros Hold. destruct old as [|o p]; [congruence|].
  change ((o :: p) ++ r) with (o :: (p ++ r)).
  rewrite replace_hit; [| easy | exact (starts_with_self (o :: p) r)].
  f_equal. f_equal. change (o :: p ++ r) with ((o :: p) ++ r).
  rewrite skipn_app_le by lia. now rewrite skipn_all.
Qed.

End StrFacts.

(** * Placeholders and the scan *)

Module PlaceholderFacts.
Import Str StrFacts ParameterParser.

Lemma lacks_app (c : ascii) (s r : text) :
  lacks c (s ++ r) = lacks c s && lacks c r.
Proof. apply forallb_app. Qed.

Lemma parameter_format_cons (n : text) :
  parameter_format n = "$"%char :: "{"%char :: n ++ ["}"%char].
Proof. reflexivity. Qed.

Lemma parameter_format_tail_plain (n : text) :
  lacks "$" n = true -> lacks "$" ("{"%char :: n ++ ["}"%char]) = true.
Proof.
  intros H. change (lacks "$" (["{"%char] ++ n ++ ["}"%char]) = true).
  rewrite !lacks_app, H. reflexivity.
Qed.

(** Text without [$] passes through the scan for a placeholder. *)
Lemma replace_plain_prefix (q new s r : text) :
  lacks "$" s = true ->
  replace (s ++ r) ("$"%char :: q) new = s ++ replace r ("$"%char :: q) new.
Proof.
  induction s as [|c s IH]; intros H; [reflexivity|].
  simpl in H. apply andb_true_iff in H as [Hc Hs].
  cbn [app]. rewrite replace_miss.
  - now rewrite IH.
  - cbn [starts_with]. apply negb_true_iff in Hc.
    rewrite Ascii.eqb_sym, Hc. reflexivity.
Qed.

Lemma replace_plain (q new s : text) :
  lacks "$" s = true -> replace s ("$"%char :: q) new = s.
Proof.
  intros H. rewrite <- (app_nil_r s) at 1.
  rewrite replace_plain_prefix by assumption.
  rewrite replace_nil by discriminate. apply app_nil_r.
Qed.

(** A pattern without [$] that starts before a [$] ends before it. *)
Lemma starts_with_before_dollar (q a r : text) :
  lacks "$" q = true ->
  starts_with q (a ++ "$"%char :: r) = true -> starts_with q a = true.
Proof.
  revert a; induction q as [|d q IH]; intros a Hq H; [reflexivity|].
  simpl in Hq. apply andb_true_iff in Hq as [Hd Hq].
  destruct a as [|c a]; cbn [app starts_with] in *.
  - apply andb_true_iff in H as [H _]. apply negb_true_iff in Hd. congruence.
  - apply andb_true_iff in H as [-> H]. simpl. eauto.
Qed.

(** The scan for a placeholder never runs across a [$]: the text before it
    and the text from it on are scanned apart. *)
Lemma replace_barrier (q new r : text) :
  lacks "$" q = true ->
  forall a,
    replace (a ++ "$"%char :: r) ("$"%char :: q) new
    = replace a ("$"%char :: q) new ++ replace ("$"%char :: r) ("$"%char :: q) new.
Proof.
  intros Hq a. remember (List.length a) as n eqn:Hn.
  revert a Hn. induction n as [n IH] using lt_wf_ind. intros a Hn.
  destruct a as [|c a]; [now rewrite replace_nil by discriminate|].
  cbn [app].
  destruct (starts_with ("$"%char :: q) (c :: a ++ "$"%char :: r)) eqn:E.
  - assert (E' : starts_with ("$"%char :: q) (c :: a) = true).
    { cbn [starts_with] in *. apply andb_true_iff in E as [-> E]. simpl.
      eapply starts_with_before_dollar; eauto. }
    rewrite !replace_hit by (assumption || discriminate).
    rewrite <- app_assoc. f_equal.
    change (c :: a ++ "$"%char :: r) with ((c :: a) ++ "$"%char :: r).
    rewrite skipn_app_le by now apply starts_with_length.
    eapply IH; [|reflexivity]. subst n.
    cbn [List.length skipn]. pose proof (skipn_length_le (List.length q) a). lia.
  - assert (E' : starts_with ("$"%char :: q) (c :: a) = false).
    { destruct (starts_with ("$"%char :: q) (c :: a)) eqn:E'; [|reflexivity].
      apply (starts_with_app _ _ ("$"%char :: r)) in E'.
      cbn [app] in E'. congruence. }
    rewrite !replace_miss by assumption. cbn [app]. f_equal.
    eapply IH; [|reflexivity]. subst n. simpl. lia.
Qed.

(** Two placeholders of plain names start at the same place only if the
    names are equal. *)
Lemma plain_names_prefix (m x r : text) :
  lacks "}" m = true -> lacks "}" x = true ->
  starts_with (m ++ ["}"%char]) (x ++ "}"%char :: r) = true -> m = x.
Proof.
  revert x; induction m as [|d m IH]; intros [|c x] Hm Hx H;
    cbn [app starts_with lacks forallb] in *.
  - reflexivity.
  - apply andb_true_iff in Hx as [Hc _]. apply andb_true_iff in H as [H _].
    apply Ascii.eqb_eq in H. subst c. discriminate.
  - apply andb_true_iff in Hm as [Hd _]. apply andb_true_iff in H as [H _].
    apply Ascii.eqb_eq in H. subst d. discriminate.
  - apply andb_true_iff in Hm as [_ Hm]. apply andb_true_iff in Hx as [_ Hx].
    apply andb_true_iff in H as [Hdc H]. apply Ascii.eqb_eq in Hdc. subst.
    f_equal. now apply IH.
Qed.

Lemma other_placeholder_no_start (m x r : text) :
  plain_name m = true -> plain_name x = true -> m <> x ->
  starts_with (parameter_format m) (parameter_format x ++ r) = false.
Proof.
  intros Hm Hx Hne.
  apply andb_true_iff in Hm as [_ Hm]. apply andb_true_iff in Hx as [_ Hx].
  destruct (starts_with _ _) eqn:E; [exfalso | reflexivity].
  rewrite !parameter_format_cons in E. cbn [app starts_with] in E.
  rewrite !Ascii.eqb_refl in E. cbn [andb] in E.
  rewrite <- app_assoc in E. apply plain_names_prefix in E; auto.
Qed.

(** Any occurrence of the placeholder that is being replaced is replaced,
    and the value put in its place is not scanned. *)
Lemma replace_placeholder_same (n v a b : text) :
  lacks "$" n = true ->
  replace (a ++ parameter_format n ++ b) (parameter_format n) v
  = replace a (parameter_format n) v ++ v ++ replace b (parameter_format n) v.
Proof.
  intros Hn.
  assert (H := replace_head (parameter_format n) v b).
  rewrite parameter_format_cons in *. cbn [app] in *.
  rewrite replace_barrier by now apply parameter_format_tail_plain.
  f_equal. apply H. discriminate.
Qed.

(** The placeholder of another name is left as it is, and the text on both
    sides of it is scanned apart. *)
Lemma replace_placeholder_other (m x v a b : text) :
  plain_name m = true -> plain_name x = true -> m <> x ->
  replace (a ++ parameter_format x ++ b) (parameter_format m) v
  = replace a (parameter_format m) v ++ parameter_format x
    ++ replace b (parameter_format m) v.
Proof.
  intros Hm Hx Hne.
  assert (Hs := other_placeholder_no_start m x b Hm Hx Hne).
  apply andb_true_iff in Hm as [Hm _]. apply andb_true_iff in Hx as [Hx _].
  rewrite (parameter_format_cons m) in *.
  rewrite (parameter_format_cons x) in *. cbn [app] in *.
  rewrite replace_barrier by now apply parameter_format_tail_plain.
  f_equal. rewrite replace_miss by assumption. f_equal.
  change ("{"%char :: (x ++ ["}"%char]) ++ b)
    with (("{"%char :: x ++ ["}"%char]) ++ b).
  rewrite replace_plain_prefix by now apply parameter_format_tail_plain.
  reflexivity.
Qed.

End PlaceholderFacts.

(** * The two passes as one sequence of replacements *)

Module ResolutionFacts.
Import Str StrFacts ParameterParser PlaceholderFacts.

Lemma substitute_app (l1 l2 : list (text * text)) (t : text) :
  substitute (l1 ++ l2) t = substitute l2 (substitute l1 t).
Proof. apply fold_left_app. Qed.

Lemma global_pass_substitute (self : t) (cmd : text) :
  _process_global_parameters self cmd
  = substitute (global_parameter_values self) cmd.
Proof.
  unfold _process_global_parameters, substitute.
  generalize (global_parameter_values self) as l. intros l; revert cmd.
  induction l as [|[n v] l IH]; intros cmd; [reflexivity|]. apply IH.
Qed.

Lemma user_pass_substitute (st : Store) (self : t) (cmd : text) :
  _process_parameters st self cmd
  = substitute (map (fun p => (ep_name p, ep_value p))
                    (parameters_all st (execution self))) cmd.
Proof.
  unfold _process_parameters, substitute.
  generalize (parameters_all st (execution self)) as l. intros l; revert cmd.
  induction l as [|p l IH]; intros cmd; [reflexivity|]. apply IH.
Qed.

Lemma process_substitute (st : Store) (self : t) (cmd : text) :
  process st self cmd = substitute (resolution_order st self) cmd.
Proof.
  unfold process, resolution_order.
  now rewrite substitute_app, global_pass_substitute, user_pass_substitute.
Qed.

(** Text without [$] has no placeholder to replace. *)
Lemma substitute_plain (l : list (text * text)) (s : text) :
  lacks "$" s = true -> substitute l s = s.
Proof.
  intros H. induction l as [|[n v] l IH]; [reflexivity|].
  unfold substitute in *. cbn [fold_left fst snd].
  rewrite parameter_format_cons, replace_plain by assumption. exact IH.
Qed.

(** A placeholder whose name no pair carries goes through every
    replacement, and splits the text in two parts resolved apart. *)
Lemma substitute_skips (l : list (text * text)) (x : text) :
  plain_names l = true -> plain_name x = true -> ~ In x (map fst l) ->
  forall a b,
    substitute l (a ++ parameter_format x ++ b)
    = substitute l a ++ parameter_format x ++ substitute l b.
Proof.
  intros Hl Hx. induction l as [|[n v] l IH]; intros Hin a b; [reflexivity|].
  unfold plain_names in Hl. cbn [map fst forallb] in Hl, Hin.
  apply andb_true_iff in Hl as [Hn Hl].
  unfold substitute in *. cbn [fold_left fst snd].
  rewrite replace_placeholder_other;
    [| assumption | assumption | intros ->; apply Hin; now left].
  apply IH; [assumption | intros H; apply Hin; now right].
Qed.

(** At the turn of the first pair named [x], any occurrence of the
    placeholder of [x] becomes the value of that pair. *)
Lemma substitute_first (l1 : list (text * text)) (x v : text) :
  plain_names l1 = true -> plain_name x = true -> ~ In x (map fst l1) ->
  forall a b,
    substitute (l1 ++ [(x, v)]) (a ++ parameter_format x ++ b)
    = substitute (l1 ++ [(x, v)]) a ++ v ++ substitute (l1 ++ [(x, v)]) b.
Proof.
  intros Hl Hx Hin a b. rewrite !substitute_app, substitute_skips by assumption.
  unfold substitute at 1 4 6. cbn [fold_left fst snd].
  apply replace_placeholder_same. now apply andb_true_iff in Hx as [Hx _].
Qed.


End ResolutionFacts.

(** * Parameter resolution *)

Module Resolution.
Import Str StrFacts ParameterParser PlaceholderFacts ResolutionFacts.

Lemma substitute_nil (l : list (text * text)) : substitute l [] = [].
Proof. now apply substitute_plain. Qed.

(** Splitting a text at occurrences of the placeholder of [x]: after the
    turn of the first pair named [x], each of them is the value. *)
Lemma substitute_first_join (l1 : list (text * text)) (x v : text) :
  plain_names l1 = true -> plain_name x = true -> ~ In x (map fst l1) ->
  forall parts,
    substitute (l1 ++ [(x, v)]) (join (parameter_format x) parts)
    = join v (map (substitute (l1 ++ [(x, v)])) parts).
Proof.
  intros Hl Hx Hin. induction parts as [|p [|q rest] IH].
  - apply substitute_nil.
  - reflexivity.
  - change (join (parameter_format x) (p :: q :: rest))
      with (p ++ parameter_format x ++ join (parameter_format x) (q :: rest)).
    rewrite substitute_first by assumption. now rewrite IH.
Qed.

Lemma resolution_split (st : Store) (self : t) (l1 l2 : list (text * text))
    (x v : text) :
  resolution_order st self = l1 ++ (x, v) :: l2 ->
  plain_names l1 = true -> plain_name x = true -> ~ In x (map fst l1) ->
  forall a b,
    process st self (a ++ parameter_format x ++ b)
    = substitute l2 (substitute (l1 ++ [(x, v)]) a ++ v
                     ++ substitute (l1 ++ [(x, v)]) b).
Proof.
  intros Ho Hl Hx Hin a b. rewrite process_substitute, Ho.
  change (l1 ++ (x, v) :: l2) with (l1 ++ [(x, v)] ++ l2).
  rewrite app_assoc, substitute_app. now rewrite substitute_first.
Qed.

End Resolution.

(** C9. A placeholder whose name (a plain name) is the name of neither a
    global parameter nor a parameter of the execution is still in the
    resolved text, at its place between the resolved text before it and the
    resolved text after it; [process] is a total function, it has no error
    result. *)
Theorem unknown_placeholder_left_verbatim
    (st : Store) (self : ParameterParser.t) (x a b : text) :
  plain_names (resolution_order st self) = true ->
  plain_name x = true ->
  ~ In x (map fst (resolution_order st self)) ->
  ParameterParser.process st self (a ++ ParameterParser.parameter_format x ++ b)
  = ParameterParser.process st self a ++ ParameterParser.parameter_format x
    ++ ParameterParser.process st self b.
Proof.
  intros Hl Hx Hin. rewrite !ResolutionFacts.process_substitute.
  now apply ResolutionFacts.substitute_skips.
Qed.

Lemma unknown_placeholder_left_verbatim_witness :
  ParameterParser.process (Sample.with_parameters [("env", "prod")]%string)
    Sample.parser (py "deploy ${gun_task} to ${env} on ${host} now")
  = py "deploy release to prod on ${host} now".
Proof.
  assert (H := unknown_placeholder_left_verbatim
                 (Sample.with_parameters [("env", "prod")]%string) Sample.parser
                 (py "host") (py "deploy ${gun_task} to ${env} on ") (py " now")).
  vm_compute in H. vm_compute. apply H.
  - reflexivity.
  - reflexivity.
  - intros F. repeat (destruct F as [F|F]; [discriminate F|]). exact F.
Defined.

(** C10. Take any parameter, global or of the execution, at its first place
    [(x, v)] in the order of resolution, and any way of cutting the command
    text at occurrences of its placeholder: after the parameter's turn every
    one of these occurrences, not only the first, is the value [v]; the
    parameters that follow work on that text. *)
Theorem every_occurrence_replaced
    (st : Store) (self : ParameterParser.t) (l1 l2 : list (text * text))
    (x v : text) (parts : list text) :
  resolution_order st self = l1 ++ (x, v) :: l2 ->
  plain_names l1 = true ->
  plain_name x = true ->
  ~ In x (map fst l1) ->
  ParameterParser.process st self
    (Str.join (ParameterParser.parameter_format x) parts)
  = substitute l2 (Str.join v (map (substitute (l1 ++ [(x, v)])) parts)).
Proof.
  intros Ho Hl Hx Hin. rewrite ResolutionFacts.process_substitute, Ho.
  change (l1 ++ (x, v) :: l2) with (l1 ++ [(x, v)] ++ l2).
  rewrite app_assoc, ResolutionFacts.substitute_app.
  now rewrite Resolution.substitute_first_join.
Qed.

Lemma every_occurrence_replaced_witness :
  ParameterParser.process (Sample.with_parameters [("env", "prod")]%string)
    Sample.parser (py "cd ${env}; tag ${env}; push ${env}")
  = py "cd prod; tag prod; push prod".
Proof.
  assert (H := every_occurrence_replaced
                 (Sample.with_parameters [("env", "prod")]%string) Sample.parser
                 (ParameterParser.global_parameter_values Sample.parser) []
                 (py "env") (py "prod") [py "cd "; py "; tag "; py "; push "; []]).
  vm_compute in H. vm_compute. apply H.
  - reflexivity.
  - reflexivity.
  - reflexivity.
  - intros F. repeat (destruct F as [F|F]; [discriminate F|]). exact F.
Defined.



(** C6, as the code has it.  The value put in for the placeholder of a
    parameter is looked at neither by that parameter's own replacement nor
    by the replacements before it: resolving the placeholder of [x] gives
    [v] as rewritten by the parameters that come after [x] in the order of
    resolution, and by no other; for the last parameter it gives [v] as it
    is, whatever placeholders [v] holds. *)
Theorem value_seen_only_by_later_parameters
    (st : Store) (self : ParameterParser.t) (l1 l2 : list (text * text))
    (x v a b : text) :
  resolution_order st self = l1 ++ (x, v) :: l2 ->
  plain_names l1 = true ->
  plain_name x = true ->
  ~ In x (map fst l1) ->
  ParameterParser.process st self (a ++ ParameterParser.parameter_format x ++ b)
  = substitute l2 (substitute (l1 ++ [(x, v)]) a ++ v
                   ++ substitute (l1 ++ [(x, v)]) b)
  /\ ParameterParser.process st self (ParameterParser.parameter_format x)
     = substitute l2 v
  /\ (l2 = [] ->
      ParameterParser.process st self (ParameterParser.parameter_format x) = v).
Proof.
  intros Ho Hl Hx Hin.
  assert (H := Resolution.resolution_split st self l1 l2 x v Ho Hl Hx Hin).
  split; [apply H|].
  assert (H0 : ParameterParser.process st self (ParameterParser.parameter_format x)
               = substitute l2 v).
  { specialize (H [] []). rewrite !Resolution.substitute_nil in H.
    cbn [app] in H. now rewrite !app_nil_r in H. }
  split; [exact H0|]. intros ->. exact H0.
Qed.

Lemma value_seen_only_by_later_parameters_witness :
  ParameterParser.process
    (Sample.with_parameters [("b", "X"); ("a", "${b} ${a} ${gun_task}")]%string)
    Sample.parser (py "${a}")
  = py "${b} ${a} ${gun_task}".
Proof.
  assert (H := value_seen_only_by_later_parameters
                 (Sample.with_parameters
                    [("b", "X"); ("a", "${b} ${a} ${gun_task}")]%string)
                 Sample.parser
                 (ParameterParser.global_parameter_values Sample.parser
                  ++ [(py "b", py "X")])
                 [] (py "a") (py "${b} ${a} ${gun_task}") [] []).
  assert (Hin : ~ In (py "a")
                  (map fst (ParameterParser.global_parameter_values Sample.parser
                            ++ [(py "b", py "X")]))).
  { intros F. vm_compute in F.
    repeat (destruct F as [F|F]; [discriminate F|]). exact F. }
  destruct (H eq_refl eq_refl eq_refl Hin) as (_ & _ & H3).
  exact (H3 eq_refl).
Defined.

(** C6, as stated, fails: the value [${b}] of the parameter [a] holds the
    placeholder of the parameter [b] that comes after [a]; the resolution of
    [${a}] expands it, and gives [X]. *)
Lemma later_parameter_expands_value :
  ParameterParser.process
    (Sample.with_parameters [("a", "${b}"); ("b", "X")]%string)
    Sample.parser (py "${a}")
  = py "X"
  /\ py "X" <> py "${b}".
Proof. split; [vm_compute; reflexivity | discriminate]. Qed.

(** * Dispatch *)

(** C4, as the code has it.  [start] puts one unit of work for the
    execution on the queue at every call, whatever the status of the
    execution, and changes nothing else. *)
Theorem start_enqueues_at_every_call (st : Store) (self : Execution) :
  Execution.start st self
  = with_worker_queue st (worker_queue st ++ [execution_id self])
  /\ worker_queue (Execution.start st self) = worker_queue st ++ [execution_id self]
  /\ executions (Execution.start st self) = executions st
  /\ execution_parameters (Execution.start st self) = execution_parameters st
  /\ execution_commands (Execution.start st self) = execution_commands st
  /\ execution_command_roles (Execution.start st self) = execution_command_roles st
  /\ execution_command_servers (Execution.start st self)
     = execution_command_servers st
  /\ execution_live_logs (Execution.start st self) = execution_live_logs st.
Proof. repeat split. Qed.

(** C4, as stated, fails: an execution that is RUNNING and was dispatched
    once is dispatched again by a second [start]. *)
Lemma second_start_enqueues_again :
  execution_status (Sample.saved_execution Execution.RUNNING) <> Execution.PENDING
  /\ worker_queue
       (Execution.start
          (Execution.start Sample.with_live_log
             (Sample.saved_execution Execution.PENDING))
          (Sample.saved_execution Execution.RUNNING))
     = [Some 1; Some 1].
Proof. split; [discriminate | reflexivity]. Qed.

(** * Live log *)

(** C3.  [get_live_log_output] never returns a text: no relation that
    points to [ExecutionCommandServer] is named [live_logs] (the one of that
    name points to [Execution]), so the attribute access raises. *)
Theorem get_live_log_output_raises (st : Store) (self : ExecutionCommandServer) :
  ExecutionCommandServer.get_live_log_output st self = inl AttributeError.
Proof. reflexivity. Qed.

(** The relation named [live_logs] is on [Execution], and the rows it
    reaches have no [output] column. *)
Lemma live_logs_relation :
  related_manager M_Execution "live_logs" = Some (M_ExecutionLiveLog, "execution"%string)
  /\ related_manager M_ExecutionCommandServer "live_logs" = None
  /\ has_field M_ExecutionLiveLog "output" = false.
Proof. repeat split. Qed.

(** * Materialisation of the plan *)

Module MaterialisationFacts.
Import Execution.

Lemma max_ids_ge (ids : list Z) (i : Z) :
  In i ids -> i <= fold_right Z.max 0 ids.
Proof.
  induction ids as [|a ids IH]; simpl; [easy|].
  intros [->|H]; [lia | apply IH in H; lia].
Qed.

Lemma fresh_id_gt (ids : list Z) (i : Z) : In i ids -> i < fresh_id ids.
Proof. intros H; apply max_ids_ge in H; unfold fresh_id; lia. Qed.

Lemma fresh_id_pos (ids : list Z) : 1 <= fresh_id ids.
Proof.
  unfold fresh_id. enough (0 <= fold_right Z.max 0 ids) by lia.
  induction ids; simpl; lia.
Qed.

Lemma roles_add_tables (st : Store) (ec : ExecutionCommand) (roles : list Z) :
  let st' := fold_left (fun st role => ExecutionCommand_roles_add st ec role)
                       roles st in
  executions st' = executions st
  /\ execution_commands st' = execution_commands st
  /\ execution_command_servers st' = execution_command_servers st.
Proof.
  revert st; induction roles as [|r roles IH]; intros st; [easy|].
  cbn [fold_left]. cbv zeta in *.
  destruct (IH (ExecutionCommand_roles_add st ec r)) as (H1 & H2 & H3).
  rewrite H1, H2, H3. unfold ExecutionCommand_roles_add.
  now destruct (existsb _ _).
Qed.

Lemma update_fresh_row (rows : list ExecutionCommand) (row : ExecutionCommand) :
  (forall r, In r rows -> ec_id r < ec_id row) ->
  map (fun r => if ec_id r =? ec_id row then row else r) (rows ++ [row])
  = rows ++ [row].
Proof.
  intros H. rewrite map_app. cbn [map]. rewrite Z.eqb_refl. f_equal.
  rewrite <- (map_id rows) at 2. apply map_ext_in. intros r Hr.
  apply H in Hr. destruct (Z.eqb_spec (ec_id r) (ec_id row)); [lia | reflexivity].
Qed.

Lemma create_servers_tables (ec : ExecutionCommand) (servers : list Server)
    (st : Store) :
  let st' := fold_left
               (fun st server => ExecutionCommandServer_insert st ec server)
               servers st in
  executions st' = executions st
  /\ execution_commands st' = execution_commands st
  /\ exists new,
       execution_command_servers st' = execution_command_servers st ++ new
       /\ map ecs_server new = map server_id servers
       /\ Forall (fun u => ecs_execution_command u = ec_id ec) new.
Proof.
  revert st; induction servers as [|s servers IH]; intros st; cbv zeta.
  - split; [reflexivity|]. split; [reflexivity|].
    exists []. now rewrite app_nil_r.
  - cbn [fold_left].
    destruct (IH (ExecutionCommandServer_insert st ec s))
      as (H1 & H2 & new & H3 & H4 & H5).
    rewrite H1, H2, H3.
    split; [reflexivity|]. split; [reflexivity|].
    unfold ExecutionCommandServer_insert at 1.
    cbn [execution_command_servers with_execution_command_servers].
    eexists (_ :: new). rewrite <- app_assoc. cbn [app]. split; [reflexivity|].
    split; [cbn [map ecs_server]; now rewrite H4|].
    constructor; [reflexivity | assumption].
Qed.

(** One command of the task: one command row, and one unit per row of the
    query. *)
Lemma create_commands_tables (st : Store) (self : Execution) (c : TaskCommand) :
  let st' := _create_execution_commands st self c in
  executions st' = executions st
  /\ execution_commands st' = execution_commands st ++ [command_row st self c]
  /\ exists new,
       execution_command_servers st' = execution_command_servers st ++ new
       /\ map ecs_server new = queried_servers self c
       /\ Forall (fun u => ecs_execution_command u
                           = ec_id (command_row st self c)) new.
Proof.
  cbv zeta. unfold _create_execution_commands, ExecutionCommand_insert.
  fold (command_row st self c).
  set (row := command_row st self c).
  set (st1 := with_execution_commands st (execution_commands st ++ [row])).
  set (st2 := fold_left _ (tc_roles c) st1).
  destruct (roles_add_tables st1 row (tc_roles c)) as (R1 & R2 & R3).
  fold st2 in R1, R2, R3.
  set (st3 := ExecutionCommand_update st2 row).
  assert (U2 : execution_commands st3 = execution_commands st ++ [row]).
  { unfold st3, ExecutionCommand_update.
    cbn [execution_commands with_execution_commands]. rewrite R2.
    unfold st1. cbn [execution_commands with_execution_commands].
    apply update_fresh_row. intros r Hr. unfold row, command_row.
    cbn [ec_id]. apply fresh_id_gt. now apply in_map. }
  unfold _create_execution_commands_servers.
  destruct (create_servers_tables row
              (servers_filter_roles_in
                 (environment_servers (execution_environment self)) (tc_roles c))
              st3) as (S1 & S2 & new & S3 & S4 & S5).
  rewrite S1, S2, S3, U2.
  split; [unfold st3; cbn; rewrite R1; reflexivity|].
  split; [reflexivity|].
  exists new. split; [|split; [exact S4 | exact S5]]. f_equal.
  unfold st3, ExecutionCommand_update.
  cbn [execution_command_servers with_execution_commands]. now rewrite R3.
Qed.

End MaterialisationFacts.

Module PlanFacts.
Import Execution MaterialisationFacts.

Lemma option_Z_eqb_refl (a : option Z) : option_Z_eqb a a = true.
Proof. destruct a; simpl; [apply Z.eqb_refl | reflexivity]. Qed.

Lemma filter_none {A : Type} (p : A -> bool) (l : list A) :
  (forall x, In x l -> p x = false) -> filter p l = [].
Proof.
  induction l as [|a l IH]; intros H; [reflexivity|]. simpl.
  rewrite (H a) by now left. apply IH. intros x Hx. apply H. now right.
Qed.

Lemma filter_all {A : Type} (p : A -> bool) (l : list A) :
  (forall x, In x l -> p x = true) -> filter p l = l.
Proof.
  induction l as [|a l IH]; intros H; [reflexivity|]. simpl.
  rewrite (H a) by now left. f_equal. apply IH. intros x Hx. apply H. now right.
Qed.

Lemma store_consistent_commands (st : Store) :
  store_consistent st = true ->
  forall ec, In ec (execution_commands st) ->
             exists i, ec_execution ec = Some i /\ In i (execution_pks st).
Proof.
  intros H ec Hec. apply andb_true_iff in H as [H _].
  rewrite forallb_forall in H. specialize (H ec Hec).
  destruct (ec_execution ec) as [i|]; [|discriminate].
  exists i. split; [reflexivity|].
  apply existsb_exists in H as (j & Hj & E). apply Z.eqb_eq in E. now subst.
Qed.

Lemma store_consistent_units (st : Store) :
  store_consistent st = true ->
  forall u, In u (execution_command_servers st) ->
            In (ecs_execution_command u) (map ec_id (execution_commands st)).
Proof.
  intros H u Hu. apply andb_true_iff in H as [_ H].
  rewrite forallb_forall in H. specialize (H u Hu).
  apply existsb_exists in H as (j & Hj & E). apply Z.eqb_eq in E. now subst.
Qed.

(** One step of the loop of [save] adds one entry to the plan of the
    execution and keeps the units tied to command rows. *)
Lemma create_commands_plan (st : Store) (self : Execution) (c : TaskCommand) :
  (forall u, In u (execution_command_servers st) ->
             In (ecs_execution_command u) (map ec_id (execution_commands st))) ->
  let st' := _create_execution_commands st self c in
  materialised_plan st' (execution_id self)
  = materialised_plan st (execution_id self)
    ++ [(tc_command c, queried_servers self c)]
  /\ (forall u, In u (execution_command_servers st') ->
                In (ecs_execution_command u) (map ec_id (execution_commands st'))).
Proof.
  intros Hu. cbv zeta.
  destruct (create_commands_tables st self c) as (_ & E2 & new & E3 & E4 & E5).
  rewrite Forall_forall in E5.
  set (row := command_row st self c) in *.
  assert (Hfresh : forall i, In i (map ec_id (execution_commands st)) ->
                             i < ec_id row).
  { intros i Hi. unfold row, command_row. cbn [ec_id]. now apply fresh_id_gt. }
  split.
  - unfold materialised_plan, execution_commands_of, execution_command_servers_of.
    rewrite E2, E3, filter_app, map_app. cbn [filter ec_execution row command_row].
    rewrite option_Z_eqb_refl. cbn [map]. f_equal.
    + apply map_ext_in. intros r Hr. apply filter_In in Hr as [Hr _].
      f_equal. rewrite filter_app. rewrite (filter_none _ new).
      * now rewrite app_nil_r.
      * intros u Hn. rewrite (E5 u Hn). apply Z.eqb_neq.
        assert (ec_id r < ec_id row) by (apply Hfresh; now apply in_map). lia.
    + f_equal. f_equal. rewrite filter_app.
      rewrite filter_none, filter_all.
      * exact E4.
      * intros u Hn. rewrite (E5 u Hn). apply Z.eqb_refl.
      * intros u Ho. apply Z.eqb_neq. apply Hu, Hfresh in Ho.
        change (ec_id (command_row st self c)) with (ec_id row). lia.
  - intros u Hin. rewrite E3 in Hin. rewrite E2, map_app.
    apply in_app_iff. apply in_app_iff in Hin as [Ho|Hn].
    + left. now apply Hu.
    + right. rewrite (E5 u Hn). now left.
Qed.

Lemma create_all_commands_plan (self : Execution) (cs : list TaskCommand) :
  forall st,
    (forall u, In u (execution_command_servers st) ->
               In (ecs_execution_command u) (map ec_id (execution_commands st))) ->
    materialised_plan
      (fold_left (fun st command => _create_execution_commands st self command) cs st)
      (execution_id self)
    = materialised_plan st (execution_id self)
      ++ map (fun c => (tc_command c, queried_servers self c)) cs.
Proof.
  induction cs as [|c cs IH]; intros st Hu; cbn [fold_left map].
  - now rewrite app_nil_r.
  - destruct (create_commands_plan st self c Hu) as [Hp Hu'].
    rewrite IH by exact Hu'. rewrite Hp, <- app_assoc. reflexivity.
Qed.

(** The first save of an execution materialises, for each command of the
    task in rank order, its text as it is and one unit per row of the
    query. *)
Lemma save_new_materialises (now : Z) (st : Store) (self : Execution) :
  store_consistent st = true ->
  execution_id self = None ->
  materialised_plan (snd (save now st self)) (execution_id (fst (save now st self)))
  = map (fun c => (tc_command c, queried_servers self c))
        (commands_ordered (execution_task self)).
Proof.
  intros Hc Hid. unfold save, Model_save_Execution. rewrite Hid.
  cbn [pk_truthy negb fst snd].
  set (self' := set_execution_id self _ now).
  set (st0 := with_executions st _).
  rewrite create_all_commands_plan.
  - replace (materialised_plan st0 (execution_id self')) with (@nil (text * list Z)).
    + reflexivity.
    + unfold materialised_plan, execution_commands_of.
      rewrite filter_none; [reflexivity|].
      intros ec Hec. unfold st0 in Hec. cbn in Hec.
      destruct (store_consistent_commands st Hc ec Hec) as (i & Hi & Hin).
      apply fresh_id_gt in Hin.
      rewrite Hi. unfold self'. cbn [execution_id set_execution_id option_Z_eqb].
      apply Z.eqb_neq. lia.
  - intros u Hin. apply (store_consistent_units st Hc u Hin).
Qed.

Lemma insert_by_order_In (c x : TaskCommand) (l : list TaskCommand) :
  In x (insert_by_order c l) <-> x = c \/ In x l.
Proof.
  induction l as [|d l IH]; simpl.
  - intuition.
  - destruct (tc_order c <=? tc_order d); simpl; [intuition|].
    rewrite IH. intuition.
Qed.

Lemma commands_ordered_In (t : Task) (c : TaskCommand) :
  In c (commands_ordered t) <-> In c (task_commands t).
Proof.
  unfold commands_ordered, order_by_order.
  induction (task_commands t) as [|d l IH]; simpl; [reflexivity|].
  rewrite insert_by_order_In, IH. intuition.
Qed.

Lemma insert_by_order_length (c : TaskCommand) (l : list TaskCommand) :
  List.length (insert_by_order c l) = S (List.length l).
Proof.
  induction l as [|d l IH]; simpl; [reflexivity|].
  destruct (tc_order c <=? tc_order d); simpl; [reflexivity | now rewrite IH].
Qed.

Lemma commands_ordered_length (t : Task) :
  List.length (commands_ordered t) = List.length (task_commands t).
Proof.
  unfold commands_ordered, order_by_order.
  induction (task_commands t) as [|d l IH]; simpl; [reflexivity|].
  now rewrite insert_by_order_length, IH.
Qed.

Lemma no_match_no_row_roles (s : Server) (roles rs : list Z) :
  filter (fun r => existsb (Z.eqb r) roles) rs = [] ->
  flat_map (fun r => if existsb (Z.eqb r) roles then [s] else []) rs = [].
Proof.
  induction rs as [|r rs IHr]; [reflexivity|]. cbn [filter flat_map].
  destruct (existsb (Z.eqb r) roles); [discriminate | exact IHr].
Qed.

(** No server whose role set meets the roles: the query has no row. *)
Lemma no_match_no_row (servers : list Server) (roles : list Z) :
  matching_servers servers roles = [] ->
  servers_filter_roles_in servers roles = [].
Proof.
  unfold matching_servers, servers_filter_roles_in.
  induction servers as [|s servers IH]; intros H; [reflexivity|].
  cbn [filter] in H. destruct (role_sets_intersect s roles) eqn:E; [discriminate|].
  cbn [flat_map]. rewrite (IH H), app_nil_r.
  unfold role_sets_intersect in E.
  induction (server_roles s) as [|r rs IHr]; [reflexivity|].
  cbn [existsb] in E. apply orb_false_iff in E as [E1 E2].
  cbn [flat_map]. rewrite E1. now apply IHr.
Qed.

End PlanFacts.

(** The query yields a server once per role it shares with the command. *)
Lemma query_rows_per_shared_role (servers : list Server) (roles : list Z) :
  List.length (servers_filter_roles_in servers roles)
  = list_sum
      (map (fun s => List.length
                       (filter (fun r => existsb (Z.eqb r) roles) (server_roles s)))
           servers).
Proof.
  assert (Hrow : forall (s : Server) (rs : list Z),
             List.length
               (flat_map (fun r => if existsb (Z.eqb r) roles then [s] else []) rs)
             = List.length (filter (fun r => existsb (Z.eqb r) roles) rs)).
  { intros s rs. induction rs as [|r rs IHr]; [reflexivity|].
    cbn [flat_map filter]. rewrite length_app, IHr.
    now destruct (existsb (Z.eqb r) roles). }
  unfold servers_filter_roles_in.
  induction servers as [|s servers IH]; [reflexivity|].
  cbn [flat_map map list_sum]. now rewrite length_app, IH, Hrow.
Qed.

(** Where no server shares more than one role with the command, the query
    yields the matching servers, each once. *)
Lemma query_rows_when_one_shared_role (servers : list Server) (roles : list Z) :
  (forall s, In s servers ->
             (List.length (filter (fun r => existsb (Z.eqb r) roles) (server_roles s))
              <= 1)%nat) ->
  servers_filter_roles_in servers roles = matching_servers servers roles.
Proof.
  assert (Hrow : forall (s : Server) (rs : list Z),
             (List.length (filter (fun r => existsb (Z.eqb r) roles) rs) <= 1)%nat ->
             flat_map (fun r => if existsb (Z.eqb r) roles then [s] else []) rs
             = if existsb (fun r => existsb (Z.eqb r) roles) rs then [s] else []).
  { intros s rs. induction rs as [|r rs IHr]; intros Hle; [reflexivity|].
    cbn [flat_map filter existsb] in *.
    destruct (existsb (Z.eqb r) roles); cbn [orb app List.length] in *.
    - f_equal. rewrite PlanFacts.no_match_no_row_roles; [reflexivity|].
      destruct (filter _ rs) eqn:E; [reflexivity | simpl in Hle; lia].
    - now apply IHr. }
  intros H. unfold servers_filter_roles_in, matching_servers.
  induction servers as [|s servers IH]; [reflexivity|].
  cbn [flat_map filter]. rewrite IH by (intros x Hx; apply H; now right).
  rewrite Hrow by (apply H; now left). unfold role_sets_intersect.
  now destruct (existsb _ (server_roles s)).
Qed.

(** C1.  An environment with the single server 20, which carries the roles
    web and db, and the command [deploy] for the roles web and db: one server
    matches, and the first save creates two units for it. *)
Theorem two_units_for_a_server_with_two_matching_roles :
  materialised_plan
    (snd (Execution.save 0 empty_store (Sample.new_execution Sample.staging)))
    (execution_id
       (fst (Execution.save 0 empty_store (Sample.new_execution Sample.staging))))
  = [ (tc_command Sample.deploy, [20; 20]); (tc_command Sample.backup, []) ]
  /\ map server_id
         (matching_servers (environment_servers Sample.staging)
                           (tc_roles Sample.deploy))
     = [20].
Proof. split; vm_compute; reflexivity. Qed.

(** C2, as the code has it.  The command rows that the first save of an
    execution creates hold the texts of the task's commands as they are, in
    rank order: [save] does not call the parser. *)
Theorem save_stores_raw_command_text (now : Z) (st : Store) (self : Execution) :
  store_consistent st = true ->
  execution_id self = None ->
  map ec_command
      (execution_commands_of (snd (Execution.save now st self))
         (execution_id (fst (Execution.save now st self))))
  = map tc_command (commands_ordered (execution_task self)).
Proof.
  intros Hc Hid. assert (H := PlanFacts.save_new_materialises now st self Hc Hid).
  apply (f_equal (map fst)) in H. unfold materialised_plan in H.
  rewrite !map_map in H. exact H.
Qed.

Lemma save_stores_raw_command_text_witness :
  map ec_command
      (execution_commands_of
         (snd (Execution.save 5 Sample.with_live_log
                 (Sample.new_execution Sample.production)))
         (Some 2))
  = [py "deploy ${gun_task} to ${env}"; py "backup"].
Proof.
  exact (save_stores_raw_command_text 5 Sample.with_live_log
           (Sample.new_execution Sample.production) eq_refl eq_refl).
Defined.

(** C2, as stated, fails: the row created for [deploy] holds the
    placeholder of the global [gun_task], which the parser would resolve to
    the name of the task. *)
Lemma stored_command_text_is_not_resolved :
  map ec_command
      (execution_commands_of
         (snd (Execution.save 5 empty_store (Sample.new_execution Sample.production)))
         (Some 1))
  = [py "deploy ${gun_task} to ${env}"; py "backup"]
  /\ ParameterParser.process
       (snd (Execution.save 5 empty_store (Sample.new_execution Sample.production)))
       Sample.created_parser
       (tc_command Sample.deploy)
     = py "deploy release to ${env}"
  /\ py "deploy ${gun_task} to ${env}" <> py "deploy release to ${env}".
Proof. repeat split; try (vm_compute; reflexivity). discriminate. Qed.

(** C7.  A command of the task that no server of the environment matches
    still gets its command row at the first save, with no unit; every
    command of the task gets a row, and [save] has no error result. *)
Theorem command_without_servers_is_materialised
    (now : Z) (st : Store) (self : Execution) (c : TaskCommand) :
  store_consistent st = true ->
  execution_id self = None ->
  In c (task_commands (execution_task self)) ->
  matching_servers (environment_servers (execution_environment self)) (tc_roles c)
  = [] ->
  (exists ec,
      In ec (execution_commands_of (snd (Execution.save now st self))
               (execution_id (fst (Execution.save now st self))))
      /\ ec_command ec = tc_command c
      /\ execution_command_servers_of (snd (Execution.save now st self)) (ec_id ec)
         = [])
  /\ List.length
       (execution_commands_of (snd (Execution.save now st self))
          (execution_id (fst (Execution.save now st self))))
     = List.length (task_commands (execution_task self)).
Proof.
  intros Hc Hid Hin Hno.
  assert (H := PlanFacts.save_new_materialises now st self Hc Hid).
  split.
  - assert (Hp : In (tc_command c, queried_servers self c)
                   (materialised_plan (snd (Execution.save now st self))
                      (execution_id (fst (Execution.save now st self))))).
    { rewrite H. apply in_map_iff. exists c. split; [reflexivity|].
      now apply PlanFacts.commands_ordered_In. }
    unfold materialised_plan in Hp. apply in_map_iff in Hp as (ec & Heq & Hec).
    exists ec. split; [exact Hec|]. injection Heq as Hcmd Hunits.
    split; [exact Hcmd|].
    unfold queried_servers in Hunits.
    rewrite (PlanFacts.no_match_no_row _ _ Hno) in Hunits.
    now apply map_eq_nil in Hunits.
  - apply (f_equal (@List.length _)) in H. unfold materialised_plan in H.
    rewrite !length_map in H. rewrite H. apply PlanFacts.commands_ordered_length.
Qed.

Lemma command_without_servers_is_materialised_witness :
  exists ec,
    In ec (execution_commands_of
             (snd (Execution.save 5 Sample.with_live_log
                     (Sample.new_execution Sample.production)))
             (Some 2))
    /\ ec_command ec = py "backup"
    /\ execution_command_servers_of
         (snd (Execution.save 5 Sample.with_live_log
                 (Sample.new_execution Sample.production)))
         (ec_id ec)
       = [].
Proof.
  refine (proj1 (command_without_servers_is_materialised 5 Sample.with_live_log
                   (Sample.new_execution Sample.production) Sample.backup
                   eq_refl eq_refl _ eq_refl)).
  simpl. left. reflexivity.
Defined.

(** C8.  Saving an execution that has its key creates no command row, no
    role row and no unit, and leaves the rows there are as they are; and the
    execution that the first save returns has its key. *)
Theorem save_again_keeps_plan (now : Z) (st : Store) (self : Execution) :
  pk_truthy (execution_id self) = true ->
  (execution_commands (snd (Execution.save now st self)) = execution_commands st
   /\ execution_command_roles (snd (Execution.save now st self))
      = execution_command_roles st
   /\ execution_command_servers (snd (Execution.save now st self))
      = execution_command_servers st)
  /\ (forall now0 st0 new,
         execution_id new = None ->
         pk_truthy (execution_id (fst (Execution.save now0 st0 new))) = true).
Proof.
  intros Hpk. split.
  - unfold Execution.save, Model_save_Execution. rewrite Hpk. cbn [negb].
    destruct (execution_id self) as [i|]; [|discriminate].
    destruct (existsb _ _); cbn; repeat split.
  - intros now0 st0 new Hid. unfold Execution.save, Model_save_Execution.
    rewrite Hid. cbn [pk_truthy negb fst execution_id set_execution_id].
    apply negb_true_iff, Z.eqb_neq.
    pose proof (MaterialisationFacts.fresh_id_pos (execution_pks st0)). lia.
Qed.

Lemma save_again_keeps_plan_witness :
  materialised_plan
    (snd (Execution.save 9
            (snd (Execution.save 5 empty_store (Sample.new_execution Sample.production)))
            (fst (Execution.save 5 empty_store (Sample.new_execution Sample.production)))))
    (Some 1)
  = [ (py "deploy ${gun_task} to ${env}", [10; 10; 11]); (py "backup", []) ].
Proof.
  destruct (save_again_keeps_plan 9
              (snd (Execution.save 5 empty_store (Sample.new_execution Sample.production)))
              (fst (Execution.save 5 empty_store (Sample.new_execution Sample.production)))
              eq_refl) as [(H1 & _ & H3) _].
  unfold materialised_plan, execution_commands_of, execution_command_servers_of.
  rewrite H1, H3. vm_compute. reflexivity.
Defined.

(** * Ordered queries *)

Module OrderingFacts.

Lemma insert_by_order_perm (c : TaskCommand) (l : list TaskCommand) :
  Permutation (insert_by_order c l) (c :: l).
Proof.
  induction l as [|d l IH]; simpl; [reflexivity|].
  destruct (tc_order c <=? tc_order d); [reflexivity|].
  rewrite IH. apply perm_swap.
Qed.

Lemma insert_by_order_sorted (c : TaskCommand) (l : list TaskCommand) :
  StronglySorted rank_le l -> StronglySorted rank_le (insert_by_order c l).
Proof.
  induction 1 as [|d l Hs IH Hall]; simpl.
  - constructor; constructor.
  - destruct (Z.leb_spec (tc_order c) (tc_order d)) as [Hle|Hgt].
    + constructor; [now constructor|]. constructor; [exact Hle|].
      eapply Forall_impl; [|exact Hall]. unfold rank_le. intros x Hx. lia.
    + constructor; [exact IH|].
      rewrite Forall_forall in *. intros x Hx.
      apply (Permutation_in _ (insert_by_order_perm c l)) in Hx.
      destruct Hx as [<-|Hx]; [unfold rank_le; lia | now apply Hall].
Qed.

Lemma insert_by_time_perm (e : Execution) (l : list Execution) :
  Permutation (insert_by_time_created_desc e l) (e :: l).
Proof.
  induction l as [|d l IH]; simpl; [reflexivity|].
  destruct (execution_time_created d <=? execution_time_created e); [reflexivity|].
  rewrite IH. apply perm_swap.
Qed.

Lemma insert_by_time_sorted (e : Execution) (l : list Execution) :
  StronglySorted newer_or_same l ->
  StronglySorted newer_or_same (insert_by_time_created_desc e l).
Proof.
  induction 1 as [|d l Hs IH Hall]; simpl.
  - constructor; constructor.
  - destruct (Z.leb_spec (execution_time_created d) (execution_time_created e))
      as [Hle|Hgt].
    + constructor; [now constructor|]. constructor; [exact Hle|].
      eapply Forall_impl; [|exact Hall]. unfold newer_or_same. intros x Hx. lia.
    + constructor; [exact IH|].
      rewrite Forall_forall in *. intros x Hx.
      apply (Permutation_in _ (insert_by_time_perm e l)) in Hx.
      destruct Hx as [<-|Hx]; [unfold newer_or_same; lia | now apply Hall].
Qed.

Lemma order_by_time_perm (l : list Execution) :
  Permutation (order_by_time_created_desc l) l.
Proof.
  induction l as [|e l IH]; simpl; [reflexivity|].
  rewrite insert_by_time_perm. now constructor.
Qed.

Lemma order_by_time_sorted (l : list Execution) :
  StronglySorted newer_or_same (order_by_time_created_desc l).
Proof.
  induction l as [|e l IH]; simpl; [constructor|].
  now apply insert_by_time_sorted.
Qed.

(** In a sorted list every element of a front part is related to every
    element behind it. *)
Lemma sorted_front_back {A : Type} (R : A -> A -> Prop) (front back : list A) :
  StronglySorted R (front ++ back) ->
  forall a b, In a front -> In b back -> R a b.
Proof.
  induction front as [|x front IH]; intros Hs a b Ha Hb; [easy|].
  cbn [app] in Hs. apply StronglySorted_inv in Hs as [Hs Hall].
  destruct Ha as [<-|Ha].
  - rewrite Forall_forall in Hall. apply Hall, in_app_iff. now right.
  - now apply IH.
Qed.

Lemma sorted_front {A : Type} (R : A -> A -> Prop) (front back : list A) :
  StronglySorted R (front ++ back) -> StronglySorted R front.
Proof.
  induction front as [|x front IH]; intros Hs; [constructor|].
  cbn [app] in Hs. apply StronglySorted_inv in Hs as [Hs Hall].
  constructor; [now apply IH|].
  rewrite Forall_forall in *. intros y Hy. apply Hall, in_app_iff. now left.
Qed.

End OrderingFacts.

(** X1.  [commands_ordered] yields the commands of the task, each as often
    as the task has it, in ascending rank. *)
Theorem commands_ordered_sorted_permutation (t : Task) :
  StronglySorted rank_le (commands_ordered t)
  /\ Permutation (commands_ordered t) (task_commands t).
Proof.
  unfold commands_ordered, order_by_order.
  induction (task_commands t) as [|c l [IHs IHp]]; simpl.
  - split; constructor.
  - split; [now apply OrderingFacts.insert_by_order_sorted|].
    rewrite OrderingFacts.insert_by_order_perm. now constructor.
Qed.

(** X2.  [get_inline_by_query] yields at most four executions, all of them
    rows of the table that meet the condition, newest first; a row that
    meets the condition and is left out is not newer than any row yielded;
    and when at most four rows meet the condition, all of them are
    yielded. *)
Theorem get_inline_by_query_newest_four (st : Store) (kwargs : Execution -> bool) :
  (List.length (Execution.get_inline_by_query st kwargs) <= 4)%nat
  /\ (forall e, In e (Execution.get_inline_by_query st kwargs) ->
                In e (executions st) /\ kwargs e = true)
  /\ StronglySorted newer_or_same
       (Execution.get_inline_by_query st kwargs)
  /\ (forall e r,
         In e (executions st) -> kwargs e = true ->
         ~ In e (Execution.get_inline_by_query st kwargs) ->
         In r (Execution.get_inline_by_query st kwargs) ->
         execution_time_created e <= execution_time_created r)
  /\ ((List.length (filter kwargs (executions st)) <= 4)%nat ->
      Permutation (Execution.get_inline_by_query st kwargs)
                  (filter kwargs (executions st))).
Proof.
  unfold Execution.get_inline_by_query.
  set (rows := filter kwargs (executions st)).
  set (sorted := order_by_time_created_desc rows).
  assert (Hperm : Permutation sorted rows) by apply OrderingFacts.order_by_time_perm.
  assert (Hsorted : StronglySorted newer_or_same sorted)
    by apply OrderingFacts.order_by_time_sorted.
  assert (Hsplit : sorted = firstn 4 sorted ++ skipn 4 sorted)
    by (symmetry; apply firstn_skipn).
  split; [apply firstn_le_length|]. split; [|split; [|split]].
  - intros e He.
    assert (Hin : In e sorted) by (rewrite Hsplit; apply in_app_iff; now left).
    apply (Permutation_in _ Hperm) in Hin. unfold rows in Hin.
    now apply filter_In in Hin.
  - rewrite Hsplit in Hsorted. now apply OrderingFacts.sorted_front in Hsorted.
  - intros e r He Hk Hout Hr.
    assert (Hin : In e sorted).
    { apply (Permutation_in _ (Permutation_sym Hperm)). unfold rows.
      apply filter_In. now split. }
    rewrite Hsplit in Hin, Hsorted. apply in_app_iff in Hin as [Hin|Hin]; [easy|].
    exact (OrderingFacts.sorted_front_back _ _ _ Hsorted r e Hr Hin).
  - intros Hlen. rewrite firstn_all2; [exact Hperm|].
    rewrite (Permutation_length Hperm). exact Hlen.
Qed.

(** * Resolution: texts without placeholders, the parser of an execution *)

Module ParserFacts.
Import Str StrFacts ParameterParser PlaceholderFacts ResolutionFacts.

Lemma replace_absent (old new s : text) :
  contains old s = false -> replace s old new = s.
Proof.
  induction s as [|c s IH]; cbn [contains]; intros H.
  - apply replace_nil. intros ->. discriminate.
  - apply orb_false_iff in H as [H1 H2].
    rewrite replace_miss by exact H1. now rewrite IH.
Qed.

Lemma substitute_absent (l : list (text * text)) (cmd : text) :
  forallb (fun nv => negb (contains (parameter_format (fst nv)) cmd)) l = true ->
  substitute l cmd = cmd.
Proof.
  induction l as [|nv l IH]; intros H; [reflexivity|].
  cbn [forallb] in H. apply andb_true_iff in H as [H1 H2].
  apply negb_true_iff in H1. unfold substitute in *. cbn [fold_left].
  rewrite replace_absent by exact H1. now apply IH.
Qed.




End ParserFacts.

(** X3.  A command text in which the placeholder of no global and of no
    parameter of the execution occurs is resolved to itself, whatever else
    it holds ([$], braces, placeholders of other names); so is the empty
    text. *)
Theorem process_without_known_placeholder
    (st : Store) (self : ParameterParser.t) (cmd : text) :
  forallb (fun nv => negb (Str.contains (ParameterParser.parameter_format (fst nv)) cmd))
          (resolution_order st self) = true ->
  ParameterParser.process st self cmd = cmd.
Proof.
  intros H. rewrite ResolutionFacts.process_substitute.
  now apply ParserFacts.substitute_absent.
Qed.

Lemma process_without_known_placeholder_witness :
  ParameterParser.process (Sample.with_parameters [("env", "prod")]%string)
    Sample.parser (py "cd $HOME && ./run ${target} {env} $env")
  = py "cd $HOME && ./run ${target} {env} $env".
Proof.
  exact (process_without_known_placeholder
           (Sample.with_parameters [("env", "prod")]%string) Sample.parser
           (py "cd $HOME && ./run ${target} {env} $env") eq_refl).
Defined.

(** The parsers of the sample inputs are the ones [ParameterParser(...)]
    builds. *)
Lemma sample_parsers_are_built :
  ParameterParser.init (Sample.saved_execution Execution.PENDING) = inr Sample.parser
  /\ ParameterParser.init
       (fst (Execution.save 5 empty_store (Sample.new_execution Sample.production)))
     = inr Sample.created_parser.
Proof. split; reflexivity. Qed.



(** * What a save adds to the store *)

Module SaveFacts.
Import Execution MaterialisationFacts.

Lemma max_ids_nonneg (ids : list Z) : 0 <= fold_right Z.max 0 ids.
Proof. induction ids; simpl; lia. Qed.

Lemma fresh_id_app_ge (l l' : list Z) : fresh_id l <= fresh_id (l ++ l').
Proof.
  unfold fresh_id. enough (fold_right Z.max 0 l <= fold_right Z.max 0 (l ++ l')) by lia.
  induction l as [|a l IH]; simpl; [apply max_ids_nonneg | lia].
Qed.

Lemma plan_extends_refl (st : Store) : plan_extends st st [] [] [].
Proof. unfold plan_extends. now rewrite !app_nil_r. Qed.

Lemma plan_extends_trans (st1 st2 st3 : Store) rows units roles rows' units' roles' :
  plan_extends st1 st2 rows units roles ->
  plan_extends st2 st3 rows' units' roles' ->
  plan_extends st1 st3 (rows ++ rows') (units ++ units') (roles ++ roles').
Proof.
  unfold plan_extends.
  intros (A1 & A2 & A3 & A4 & A5 & A6 & A7) (B1 & B2 & B3 & B4 & B5 & B6 & B7).
  rewrite B1, B2, B3, B4, B5, B6, B7, A1, A2, A3, A4, A5, A6, A7.
  now rewrite !app_assoc.
Qed.

(** The role rows that the loop over the roles of a command adds. *)
Lemma roles_add_extends (ec : ExecutionCommand) (roles : list Z) (st : Store) :
  exists added,
    plan_extends st
      (fold_left (fun st role => ExecutionCommand_roles_add st ec role) roles st)
      [] [] (map (fun r => (ec_id ec, r)) added)
    /\ (forall r, In r added -> In r roles)
    /\ (forall r, In r roles -> In r (roles_of st (ec_id ec) ++ added))
    /\ (NoDup (roles_of st (ec_id ec)) -> NoDup (roles_of st (ec_id ec) ++ added)).
Proof.
  revert st. induction roles as [|r roles IH]; intros st.
  - exists []. split; [apply plan_extends_refl|]. rewrite app_nil_r. easy.
  - cbn [fold_left].
    assert (Hex : existsb (fun p => (fst p =? ec_id ec) && (snd p =? r))
                          (execution_command_roles st) = true
                  <-> In r (roles_of st (ec_id ec))).
    { unfold roles_of. rewrite existsb_exists, in_map_iff. split.
      - intros (p & Hp & E). apply andb_true_iff in E as [E1 E2].
        exists p. apply Z.eqb_eq in E2. split; [exact E2|].
        apply filter_In. now split.
      - intros (p & E & Hp). apply filter_In in Hp as [Hp E1].
        exists p. split; [exact Hp|]. rewrite E1. now apply Z.eqb_eq. }
    unfold ExecutionCommand_roles_add at 2.
    destruct (existsb _ (execution_command_roles st)) eqn:E.
    + destruct (IH st) as (added & H1 & H2 & H3 & H4).
      exists added. split; [exact H1|]. split; [intros x Hx; right; auto|].
      split; [|exact H4].
      intros x [<-|Hx]; [|now apply H3].
      apply in_app_iff. left. now apply Hex.
    + set (st1 := with_execution_command_roles st
                    (execution_command_roles st ++ [(ec_id ec, r)])).
      assert (Hst1 : roles_of st1 (ec_id ec) = roles_of st (ec_id ec) ++ [r]).
      { unfold roles_of, st1. cbn [execution_command_roles with_execution_command_roles].
        rewrite filter_app, map_app. cbn [filter fst]. now rewrite Z.eqb_refl. }
      destruct (IH st1) as (added & H1 & H2 & H3 & H4).
      rewrite Hst1 in H3, H4.
      exists (r :: added). split; [|split; [|split]].
      * assert (H0 : plan_extends st st1 [] [] [(ec_id ec, r)])
          by (unfold plan_extends, st1; cbn; now rewrite !app_nil_r).
        exact (plan_extends_trans _ _ _ _ _ _ _ _ _ H0 H1).
      * intros x [<-|Hx]; [now left | right; auto].
      * intros x Hx.
        assert (Hx' : In x ((roles_of st (ec_id ec) ++ [r]) ++ added))
          by (destruct Hx as [<-|Hx];
              [apply in_app_iff; left; apply in_app_iff; right; now left
              | now apply H3]).
        now rewrite <- app_assoc in Hx'.
      * intros Hnd. change (r :: added) with ([r] ++ added). rewrite app_assoc.
        apply H4. apply NoDup_app_remove_l with (l := []). cbn [app].
        apply (Permutation_NoDup (l := r :: roles_of st (ec_id ec))).
        -- apply Permutation_cons_append.
        -- constructor; [|exact Hnd]. intros Hin. apply Hex in Hin. congruence.
Qed.

(** The units that the loop over the rows of the query adds. *)
Lemma create_servers_extends (ec : ExecutionCommand) (servers : list Server)
    (st : Store) :
  exists units,
    plan_extends st
      (fold_left (fun st server => ExecutionCommandServer_insert st ec server)
                 servers st)
      [] units []
    /\ map ecs_server units = map server_id servers
    /\ Forall (fun u => ecs_execution_command u = ec_id ec
                        /\ initial_unit u = true) units.
Proof.
  revert st. induction servers as [|s servers IH]; intros st.
  - exists []. split; [apply plan_extends_refl|]. split; [reflexivity | constructor].
  - cbn [fold_left].
    destruct (IH (ExecutionCommandServer_insert st ec s)) as (units & H1 & H2 & H3).
    eexists (_ :: units). split; [|split].
    + refine (plan_extends_trans st _ _ [] [_] [] [] units [] _ H1).
      unfold plan_extends, ExecutionCommandServer_insert. cbn.
      rewrite !app_nil_r. repeat split.
    + cbn [map ecs_server]. now rewrite H2.
    + constructor; [|exact H3]. split; reflexivity.
Qed.

End SaveFacts.

Module SaveLoopFacts.
Import Execution MaterialisationFacts SaveFacts.

(** One command of the task: its command row, its units, its role rows. *)
Lemma create_commands_extends (st : Store) (self : Execution) (c : TaskCommand) :
  exists units roles,
    plan_extends st (_create_execution_commands st self c)
      [command_row st self c] units
      (map (fun r => (ec_id (command_row st self c), r)) roles)
    /\ map ecs_server units = queried_servers self c
    /\ Forall (fun u => ecs_execution_command u = ec_id (command_row st self c)
                        /\ initial_unit u = true) units
    /\ (forall r, In r roles -> In r (tc_roles c))
    /\ (forall r, In r (tc_roles c) ->
                  In r (roles_of st (ec_id (command_row st self c)) ++ roles))
    /\ (NoDup (roles_of st (ec_id (command_row st self c))) ->
        NoDup (roles_of st (ec_id (command_row st self c)) ++ roles)).
Proof.
  unfold _create_execution_commands, ExecutionCommand_insert.
  fold (command_row st self c). set (row := command_row st self c).
  set (st1 := with_execution_commands st (execution_commands st ++ [row])).
  assert (H1 : plan_extends st st1 [row] [] [])
    by (unfold plan_extends, st1; cbn; now rewrite !app_nil_r).
  destruct (roles_add_extends row (tc_roles c) st1) as (added & H2 & R1 & R2 & R3).
  set (st2 := fold_left _ (tc_roles c) st1) in *.
  set (st3 := ExecutionCommand_update st2 row).
  assert (H3 : plan_extends st2 st3 [] [] []).
  { assert (Hrows : execution_commands st3 = execution_commands st2).
    { unfold st3, ExecutionCommand_update.
      cbn [execution_commands with_execution_commands].
      destruct H2 as (E & _). rewrite E, app_nil_r.
      unfold st1. cbn [execution_commands with_execution_commands].
      apply update_fresh_row. intros r Hr. unfold row, command_row. cbn [ec_id].
      apply fresh_id_gt. now apply in_map. }
    unfold plan_extends. rewrite Hrows, !app_nil_r.
    unfold st3, ExecutionCommand_update. cbn. repeat split. }
  unfold _create_execution_commands_servers.
  destruct (create_servers_extends row
              (servers_filter_roles_in
                 (environment_servers (execution_environment self)) (tc_roles c))
              st3) as (units & H4 & U1 & U2).
  exists units, added.
  split; [|split; [exact U1|split; [exact U2|split; [exact R1|split]]]].
  - pose proof (plan_extends_trans _ _ _ _ _ _ _ _ _
                  (plan_extends_trans _ _ _ _ _ _ _ _ _
                     (plan_extends_trans _ _ _ _ _ _ _ _ _ H1 H2) H3) H4) as H.
    cbn [app] in H. now rewrite !app_nil_r in H.
  - exact R2.
  - exact R3.
Qed.

(** The loop of [save] over the commands of the task. *)
Lemma save_loop_extends (self : Execution) (cs : list TaskCommand) (st : Store) :
  exists rows units roles,
    plan_extends st
      (fold_left (fun st command => _create_execution_commands st self command) cs st)
      rows units roles
    /\ Forall (fun r => ec_execution r = execution_id self
                        /\ fresh_id (map ec_id (execution_commands st)) <= ec_id r)
              rows
    /\ Forall (fun u => initial_unit u = true
                        /\ In (ecs_execution_command u) (map ec_id rows)) units
    /\ Forall (fun p => In (fst p) (map ec_id rows)) roles.
Proof.
  revert st. induction cs as [|c cs IH]; intros st.
  - exists [], [], []. split; [apply plan_extends_refl|]. repeat split; constructor.
  - cbn [fold_left].
    destruct (create_commands_extends st self c)
      as (units1 & roles1 & H1 & _ & U1 & _).
    set (st1 := _create_execution_commands st self c) in *.
    destruct (IH st1) as (rows2 & units2 & roles2 & H2 & R2 & U2 & P2).
    exists ([command_row st self c] ++ rows2), (units1 ++ units2),
      (map (fun r => (ec_id (command_row st self c), r)) roles1 ++ roles2).
    split; [exact (plan_extends_trans _ _ _ _ _ _ _ _ _ H1 H2)|].
    split; [|split].
    + cbn [app]. constructor; [split; [reflexivity | cbn [ec_id command_row]; lia]|].
      eapply Forall_impl; [|exact R2]. intros r [E B]. split; [exact E|].
      destruct H1 as (E1 & _). rewrite E1, map_app in B.
      pose proof (fresh_id_app_ge (map ec_id (execution_commands st))
                    (map ec_id [command_row st self c])). lia.
    + apply Forall_app. split.
      * eapply Forall_impl; [|exact U1]. intros u [E I]. split; [exact I|].
        rewrite E. now left.
      * eapply Forall_impl; [|exact U2]. intros u [I E]. split; [exact I|].
        rewrite map_app. apply in_app_iff. now right.
    + apply Forall_app. split.
      * apply Forall_forall. intros p Hp. apply in_map_iff in Hp as (r & <- & _).
        now left.
      * eapply Forall_impl; [|exact P2]. intros p E.
        rewrite map_app. apply in_app_iff. now right.
Qed.

Lemma save_unfold (now : Z) (st : Store) (self : Execution) :
  save now st self
  = (fst (Model_save_Execution now st self),
     if pk_truthy (execution_id self)
     then snd (Model_save_Execution now st self)
     else fold_left
            (fun s command =>
               _create_execution_commands s
                 (fst (Model_save_Execution now st self)) command)
            (commands_ordered (execution_task (fst (Model_save_Execution now st self))))
            (snd (Model_save_Execution now st self))).
Proof.
  unfold save. destruct (Model_save_Execution now st self) as [self' st'].
  cbv zeta. destruct (pk_truthy (execution_id self)); reflexivity.
Qed.

(** The base save touches the executions table only. *)
Lemma Model_save_tables (now : Z) (st : Store) (self : Execution) :
  execution_commands (snd (Model_save_Execution now st self)) = execution_commands st
  /\ execution_command_servers (snd (Model_save_Execution now st self))
     = execution_command_servers st
  /\ execution_command_roles (snd (Model_save_Execution now st self))
     = execution_command_roles st
  /\ execution_parameters (snd (Model_save_Execution now st self))
     = execution_parameters st
  /\ execution_live_logs (snd (Model_save_Execution now st self))
     = execution_live_logs st
  /\ worker_queue (snd (Model_save_Execution now st self)) = worker_queue st.
Proof.
  unfold Model_save_Execution. destruct (execution_id self) as [i|].
  - destruct (existsb _ _); cbn; repeat split.
  - cbn. repeat split.
Qed.

(** Every save adds rows at the end of the plan tables, for the execution
    saved, and touches no parameter, no live-log entry and not the queue. *)
Lemma save_extends (now : Z) (st : Store) (self : Execution) :
  exists rows units roles,
    execution_commands (snd (save now st self)) = execution_commands st ++ rows
    /\ execution_command_servers (snd (save now st self))
       = execution_command_servers st ++ units
    /\ execution_command_roles (snd (save now st self))
       = execution_command_roles st ++ roles
    /\ executions (snd (save now st self))
       = executions (snd (Model_save_Execution now st self))
    /\ execution_parameters (snd (save now st self)) = execution_parameters st
    /\ execution_live_logs (snd (save now st self)) = execution_live_logs st
    /\ worker_queue (snd (save now st self)) = worker_queue st
    /\ Forall (fun r => ec_execution r = execution_id (fst (save now st self))
                        /\ fresh_id (map ec_id (execution_commands st)) <= ec_id r)
              rows
    /\ Forall (fun u => initial_unit u = true
                        /\ In (ecs_execution_command u) (map ec_id rows)) units
    /\ Forall (fun p => In (fst p) (map ec_id rows)) roles.
Proof.
  rewrite save_unfold. cbn [fst snd].
  destruct (Model_save_tables now st self) as (M1 & M2 & M3 & M4 & M5 & M6).
  destruct (pk_truthy (execution_id self)).
  - exists [], [], []. rewrite !app_nil_r. repeat split; auto.
  - destruct (save_loop_extends (fst (Model_save_Execution now st self))
                (commands_ordered
                   (execution_task (fst (Model_save_Execution now st self))))
                (snd (Model_save_Execution now st self)))
      as (rows & units & roles & (E1 & E2 & E3 & E4 & E5 & E6 & E7) & R & U & P).
    exists rows, units, roles.
    rewrite E1, E2, E3, E4, E5, E6, E7, M1, M2, M3, M4, M5, M6.
    rewrite M1 in R. repeat split; auto.
Qed.

End SaveLoopFacts.

Module StoreFacts.
Import Execution MaterialisationFacts SaveFacts SaveLoopFacts.

Lemma option_Z_eqb_eq (a b : option Z) : option_Z_eqb a b = true <-> a = b.
Proof.
  destruct a as [x|], b as [y|]; simpl; try (split; congruence).
  rewrite Z.eqb_eq. split; congruence.
Qed.

Lemma find_last {A : Type} (p : A -> bool) (l : list A) (y : A) :
  (forall x, In x l -> p x = false) -> p y = true -> find p (l ++ [y]) = Some y.
Proof.
  induction l as [|a l IH]; intros Hl Hy; cbn [app find].
  - now rewrite Hy.
  - rewrite (Hl a) by now left. apply IH; [|exact Hy].
    intros x Hx. apply Hl. now right.
Qed.

Lemma find_replaced {A : Type} (p : A -> bool) (l : list A) (y : A) :
  existsb p l = true -> p y = true ->
  find p (map (fun r => if p r then y else r) l) = Some y.
Proof.
  induction l as [|a l IH]; intros He Hy; [discriminate|].
  cbn [map find existsb] in *. destruct (p a) eqn:E.
  - now rewrite Hy.
  - rewrite E. now apply IH.
Qed.

Lemma pks_replaced (i : Z) (self : Execution) (rows : list Execution) :
  execution_id self = Some i ->
  flat_map (fun e => match execution_id e with Some k => [k] | None => [] end)
           (map (fun r => if option_Z_eqb (execution_id r) (Some i) then self else r)
                rows)
  = flat_map (fun e => match execution_id e with Some k => [k] | None => [] end) rows.
Proof.
  intros Hid. induction rows as [|r rows IH]; [reflexivity|].
  cbn [map flat_map]. rewrite IH. f_equal.
  destruct (option_Z_eqb (execution_id r) (Some i)) eqn:E; [|reflexivity].
  apply option_Z_eqb_eq in E. now rewrite E, Hid.
Qed.

Lemma pks_in_existsb (st : Store) (i : Z) :
  existsb (fun r => option_Z_eqb (execution_id r) (Some i)) (executions st) = true
  <-> In i (execution_pks st).
Proof.
  unfold execution_pks. rewrite existsb_exists, in_flat_map. split.
  - intros (r & Hr & E). apply option_Z_eqb_eq in E. exists r. split; [exact Hr|].
    rewrite E. now left.
  - intros (r & Hr & Hi). exists r. split; [exact Hr|].
    destruct (execution_id r) as [k|]; [|easy]. destruct Hi as [->|[]].
    simpl. apply Z.eqb_refl.
Qed.

End StoreFacts.

Module BaseSaveFacts.
Import Execution MaterialisationFacts StoreFacts.

Lemma pks_after_append (st : Store) (e : Execution) :
  execution_pks (with_executions st (executions st ++ [e]))
  = execution_pks st
    ++ match execution_id e with Some k => [k] | None => [] end.
Proof.
  unfold execution_pks. cbn [executions with_executions].
  rewrite flat_map_app. cbn [flat_map]. now rewrite app_nil_r.
Qed.

Lemma pks_after_replace (st : Store) (i : Z) (self : Execution) :
  execution_id self = Some i ->
  execution_pks
    (with_executions st
       (map (fun r => if option_Z_eqb (execution_id r) (Some i) then self else r)
            (executions st)))
  = execution_pks st.
Proof.
  intros Hid. unfold execution_pks. cbn [executions with_executions].
  now apply pks_replaced.
Qed.

Lemma no_row_under_key (st : Store) (i : Z) :
  ~ In i (execution_pks st) ->
  forall x, In x (executions st) -> option_Z_eqb (execution_id x) (Some i) = false.
Proof.
  intros Hni x Hx. destruct (option_Z_eqb (execution_id x) (Some i)) eqn:Ex;
    [|reflexivity].
  exfalso. apply Hni, pks_in_existsb, existsb_exists. eauto.
Qed.

(** After the base save the object has a key, its row is the row found
    under that key, and no key of the table is lost. *)
Lemma Model_save_key (now : Z) (st : Store) (self : Execution) :
  exists k,
    execution_id (fst (Model_save_Execution now st self)) = Some k
    /\ In k (execution_pks (snd (Model_save_Execution now st self)))
    /\ (forall i, In i (execution_pks st) ->
                  In i (execution_pks (snd (Model_save_Execution now st self))))
    /\ execution_by_pk (snd (Model_save_Execution now st self)) (Some k)
       = Some (fst (Model_save_Execution now st self))
    /\ (execution_id self = None -> k = fresh_id (execution_pks st)).
Proof.
  unfold Model_save_Execution.
  destruct (execution_id self) as [i|] eqn:Hid.
  - destruct (existsb _ (executions st)) eqn:E; cbn [fst snd].
    + exists i. split; [exact Hid|]. rewrite (pks_after_replace st i self Hid).
      split; [now apply pks_in_existsb|]. split; [auto|]. split; [|discriminate].
      unfold execution_by_pk. cbn [executions with_executions].
      apply find_replaced; [exact E|]. rewrite Hid. apply Z.eqb_refl.
    + exists i. split; [reflexivity|]. rewrite pks_after_append.
      cbn [execution_id set_execution_id].
      split; [apply in_app_iff; right; now left|].
      split; [intros j Hj; apply in_app_iff; now left|]. split; [|discriminate].
      unfold execution_by_pk. cbn [executions with_executions].
      apply find_last; [|apply Z.eqb_refl].
      apply no_row_under_key. intros Hin. apply pks_in_existsb in Hin. congruence.
  - cbn [fst snd]. exists (fresh_id (execution_pks st)). split; [reflexivity|].
    rewrite pks_after_append. cbn [execution_id set_execution_id].
    split; [apply in_app_iff; right; now left|].
    split; [intros j Hj; apply in_app_iff; now left|]. split; [|reflexivity].
    unfold execution_by_pk. cbn [executions with_executions].
    apply find_last; [|apply Z.eqb_refl].
    apply no_row_under_key. intros Hin. apply fresh_id_gt in Hin. lia.
Qed.

(** The first save gives the object the fresh key of the table. *)
Lemma save_new_key (now : Z) (st : Store) (self : Execution) :
  execution_id self = None ->
  execution_id (fst (Execution.save now st self))
  = Some (fresh_id (execution_pks st)).
Proof.
  intros Hid. rewrite SaveLoopFacts.save_unfold. cbn [fst].
  unfold Model_save_Execution. now rewrite Hid.
Qed.

End BaseSaveFacts.

(** X5.  After [save], the row found under the key of the object returned
    is that object: a new execution is stored under a key no row had, an
    execution that has its row replaces it, and one with a key but no row
    is stored under its key. *)
Theorem save_then_lookup (now : Z) (st : Store) (self : Execution) :
  execution_by_pk (snd (Execution.save now st self))
    (execution_id (fst (Execution.save now st self)))
  = Some (fst (Execution.save now st self))
  /\ (execution_id self = None ->
      forall k, execution_id (fst (Execution.save now st self)) = Some k ->
                k <> 0 /\ ~ In k (execution_pks st)).
Proof.
  destruct (SaveLoopFacts.save_extends now st self)
    as (rows & units & roles & _ & _ & _ & E & _).
  assert (Hfst : fst (Execution.save now st self)
                 = fst (Model_save_Execution now st self))
    by now rewrite SaveLoopFacts.save_unfold.
  destruct (BaseSaveFacts.Model_save_key now st self) as (k & K1 & _ & _ & K4 & K5).
  rewrite Hfst, K1. split.
  - unfold execution_by_pk in *. now rewrite E.
  - intros Hid k' Hk'. injection Hk' as <-. rewrite (K5 Hid). split.
    + pose proof (MaterialisationFacts.fresh_id_pos (execution_pks st)). lia.
    + intros Hin. apply MaterialisationFacts.fresh_id_gt in Hin. lia.
Qed.

(** X6.  [save] is additive: the rows it adds to the command, unit and role
    tables come after the rows there were, which are left as they are; it
    touches no parameter, no live-log entry and puts nothing on the worker
    queue; and the plan of every other execution is what it was. *)
Theorem save_leaves_other_plans (now : Z) (st : Store) (self : Execution)
    (pk : option Z) :
  pk <> execution_id (fst (Execution.save now st self)) ->
  materialised_plan (snd (Execution.save now st self)) pk = materialised_plan st pk
  /\ (exists rows units roles,
         execution_commands (snd (Execution.save now st self))
         = execution_commands st ++ rows
         /\ execution_command_servers (snd (Execution.save now st self))
            = execution_command_servers st ++ units
         /\ execution_command_roles (snd (Execution.save now st self))
            = execution_command_roles st ++ roles)
  /\ execution_parameters (snd (Execution.save now st self)) = execution_parameters st
  /\ execution_live_logs (snd (Execution.save now st self)) = execution_live_logs st
  /\ worker_queue (snd (Execution.save now st self)) = worker_queue st.
Proof.
  intros Hpk.
  destruct (SaveLoopFacts.save_extends now st self)
    as (rows & units & roles & E1 & E2 & E3 & _ & E5 & E6 & E7 & R & U & _).
  split; [|split; [exists rows, units, roles; auto | auto]].
  rewrite Forall_forall in R, U.
  unfold materialised_plan, execution_commands_of, execution_command_servers_of.
  rewrite E1, E2, filter_app.
  rewrite (PlanFacts.filter_none _ rows).
  - rewrite app_nil_r. apply map_ext_in. intros r Hr.
    apply filter_In in Hr as [Hr _]. f_equal. rewrite filter_app.
    rewrite (PlanFacts.filter_none _ units); [now rewrite app_nil_r|].
    intros u Hu. apply Z.eqb_neq. destruct (U u Hu) as [_ Hin].
    apply in_map_iff in Hin as (r' & Er' & Hr'). destruct (R r' Hr') as [_ Hb].
    assert (ec_id r < fresh_id (map ec_id (execution_commands st)))
      by (apply MaterialisationFacts.fresh_id_gt; now apply in_map).
    lia.
  - intros r Hr. destruct (R r Hr) as [Hx _].
    destruct (option_Z_eqb (ec_execution r) pk) eqn:E; [|reflexivity].
    apply StoreFacts.option_Z_eqb_eq in E. congruence.
Qed.

Lemma save_leaves_other_plans_witness :
  materialised_plan
    (snd (Execution.save 9
            (snd (Execution.save 5 empty_store (Sample.new_execution Sample.production)))
            (Sample.new_execution Sample.staging)))
    (Some 1)
  = [ (py "deploy ${gun_task} to ${env}", [10; 10; 11]); (py "backup", []) ].
Proof.
  refine (eq_trans
            (proj1 (save_leaves_other_plans 9
                      (snd (Execution.save 5 empty_store
                              (Sample.new_execution Sample.production)))
                      (Sample.new_execution Sample.staging) (Some 1) _)) _).
  - vm_compute. discriminate.
  - vm_compute. reflexivity.
Defined.

Lemma save_then_lookup_witness :
  execution_by_pk
    (snd (Execution.save 5 Sample.with_live_log (Sample.new_execution Sample.staging)))
    (Some 2)
  = Some (fst (Execution.save 5 Sample.with_live_log
                 (Sample.new_execution Sample.staging)))
  /\ ~ In 2 (execution_pks Sample.with_live_log).
Proof.
  split.
  - exact (proj1 (save_then_lookup 5 Sample.with_live_log
                    (Sample.new_execution Sample.staging))).
  - exact (proj2 (proj2 (save_then_lookup 5 Sample.with_live_log
                           (Sample.new_execution Sample.staging))
                        eq_refl 2 eq_refl)).
Defined.

(** X7.  Every unit that the first save of an execution creates is
    pending, has no return code and no output. *)
Theorem new_units_are_pending (now : Z) (st : Store) (self : Execution)
    (ec : ExecutionCommand) (u : ExecutionCommandServer) :
  store_consistent st = true ->
  execution_id self = None ->
  In ec (execution_commands_of (snd (Execution.save now st self))
           (execution_id (fst (Execution.save now st self)))) ->
  In u (execution_command_servers_of (snd (Execution.save now st self)) (ec_id ec)) ->
  ecs_status u = Execution.PENDING
  /\ ecs_return_code u = None
  /\ ecs_output u = [].
Proof.
  intros Hc Hid Hec Hu.
  destruct (SaveLoopFacts.save_extends now st self)
    as (rows & units & roles & E1 & E2 & _ & _ & _ & _ & _ & R & U & _).
  rewrite Forall_forall in R, U.
  rewrite (BaseSaveFacts.save_new_key now st self Hid) in Hec.
  unfold execution_commands_of in Hec. unfold execution_command_servers_of in Hu.
  rewrite E1 in Hec. rewrite E2 in Hu.
  apply filter_In in Hec as [Hec Hpk]. apply filter_In in Hu as [Hu Hid_u].
  apply StoreFacts.option_Z_eqb_eq in Hpk. apply Z.eqb_eq in Hid_u.
  assert (Hnew : In ec rows).
  { apply in_app_iff in Hec as [Hold|Hnew]; [exfalso | exact Hnew].
    destruct (PlanFacts.store_consistent_commands st Hc ec Hold) as (i & Hi & Hin).
    rewrite Hi in Hpk. injection Hpk as ->.
    apply MaterialisationFacts.fresh_id_gt in Hin. lia. }
  destruct (R ec Hnew) as [_ Hbound].
  assert (Hunit : In u units).
  { apply in_app_iff in Hu as [Hold|Hu]; [exfalso | exact Hu].
    apply (PlanFacts.store_consistent_units st Hc) in Hold.
    apply MaterialisationFacts.fresh_id_gt in Hold. lia. }
  destruct (U u Hunit) as [Hinit _]. unfold initial_unit in Hinit.
  apply andb_true_iff in Hinit as [Hinit Hout].
  apply andb_true_iff in Hinit as [Hst Hrc]. apply Z.eqb_eq in Hst.
  split; [exact Hst|]. split.
  - now destruct (ecs_return_code u).
  - now destruct (ecs_output u).
Qed.

Lemma new_units_are_pending_witness :
  In {| ecs_id := 4; ecs_execution_command := 2; ecs_status := 3;
        ecs_return_code := None; ecs_server := 11; ecs_output := [] |}
     (execution_command_servers_of
        (snd (Execution.save 5 Sample.with_live_log
                (Sample.new_execution Sample.production))) 2)
  /\ Execution.PENDING = 3.
Proof.
  assert (Hu : In {| ecs_id := 4; ecs_execution_command := 2; ecs_status := 3;
                     ecs_return_code := None; ecs_server := 11; ecs_output := [] |}
                  (execution_command_servers_of
                     (snd (Execution.save 5 Sample.with_live_log
                             (Sample.new_execution Sample.production))) 2)).
  { vm_compute. right. right. left. reflexivity. }
  split; [exact Hu|].
  symmetry.
  refine (proj1 (new_units_are_pending 5 Sample.with_live_log
                   (Sample.new_execution Sample.production)
                   {| ec_id := 2; ec_execution := Some 2;
                      ec_command := py "deploy ${gun_task} to ${env}" |}
                   _ eq_refl eq_refl _ Hu)).
  vm_compute. left. reflexivity.
Defined.

(** X8.  [save] keeps the references of the plan tables sound: if every
    command row belongs to an execution of the store, and every unit and
    every role row to a command row of the store, then so it is after the
    save, for a new execution as for one that has its key. *)
Theorem save_keeps_references (now : Z) (st : Store) (self : Execution) :
  store_consistent st = true ->
  roles_consistent st = true ->
  store_consistent (snd (Execution.save now st self)) = true
  /\ roles_consistent (snd (Execution.save now st self)) = true.
Proof.
  intros Hc Hr.
  destruct (SaveLoopFacts.save_extends now st self)
    as (rows & units & roles & E1 & E2 & E3 & E4 & _ & _ & _ & R & U & P).
  rewrite Forall_forall in R, U, P.
  assert (Hfst : fst (Execution.save now st self)
                 = fst (Model_save_Execution now st self))
    by now rewrite SaveLoopFacts.save_unfold.
  destruct (BaseSaveFacts.Model_save_key now st self) as (k & K1 & K2 & K3 & _).
  assert (Hpks : execution_pks (snd (Execution.save now st self))
                 = execution_pks (snd (Model_save_Execution now st self)))
    by (unfold execution_pks; now rewrite E4).
  assert (Hids : forall i, In i (map ec_id (execution_commands st) ++ map ec_id rows) ->
                           existsb (Z.eqb i)
                             (map ec_id (execution_commands (snd (Execution.save now st self))))
                           = true).
  { intros i Hi. apply existsb_exists. exists i. split; [|apply Z.eqb_refl].
    now rewrite E1, map_app. }
  split.
  - unfold store_consistent. apply andb_true_iff. split; apply forallb_forall.
    + intros ec Hec. rewrite E1 in Hec. rewrite Hpks.
      apply in_app_iff in Hec as [Hold|Hnew].
      * destruct (PlanFacts.store_consistent_commands st Hc ec Hold) as (i & -> & Hi).
        apply existsb_exists. exists i. split; [now apply K3 | apply Z.eqb_refl].
      * destruct (R ec Hnew) as [-> _]. rewrite Hfst, K1.
        apply existsb_exists. exists k. split; [exact K2 | apply Z.eqb_refl].
    + intros u Hu. rewrite E2 in Hu. apply Hids, in_app_iff.
      apply in_app_iff in Hu as [Hold|Hnew].
      * left. now apply (PlanFacts.store_consistent_units st Hc).
      * right. now destruct (U u Hnew).
  - unfold roles_consistent. apply forallb_forall. intros p Hp. rewrite E3 in Hp.
    apply Hids, in_app_iff. apply in_app_iff in Hp as [Hold|Hnew].
    + left. unfold roles_consistent in Hr. rewrite forallb_forall in Hr.
      specialize (Hr p Hold). apply existsb_exists in Hr as (i & Hi & E).
      apply Z.eqb_eq in E. now subst.
    + right. now apply P.
Qed.

Lemma save_keeps_references_witness :
  store_consistent
    (snd (Execution.save 5 Sample.with_live_log (Sample.new_execution Sample.production)))
  = true.
Proof.
  exact (proj1 (save_keeps_references 5 Sample.with_live_log
                  (Sample.new_execution Sample.production) eq_refl eq_refl)).
Defined.

Module QueryFacts.

(** The query yields the servers that share a role with the command, and no
    other. *)
Lemma query_yields_matching (servers : list Server) (roles : list Z) (s : Server) :
  In s (servers_filter_roles_in servers roles) <-> In s (matching_servers servers roles).
Proof.
  unfold servers_filter_roles_in, matching_servers, role_sets_intersect.
  rewrite in_flat_map, filter_In. split.
  - intros (x & Hx & Hin). apply in_flat_map in Hin as (r & Hr & Hin).
    destruct (existsb (Z.eqb r) roles) eqn:E; [|easy].
    destruct Hin as [<-|[]]. split; [exact Hx|].
    apply existsb_exists. eauto.
  - intros [Hs He]. exists s. split; [exact Hs|].
    apply existsb_exists in He as (r & Hr & E).
    apply in_flat_map. exists r. split; [exact Hr|]. rewrite E. now left.
Qed.

End QueryFacts.

Module RolesFacts.
Import Execution MaterialisationFacts SaveFacts SaveLoopFacts.

Lemma roles_of_new_rows (k j : Z) (roles : list Z) :
  map snd (filter (fun p => fst p =? j) (map (fun r => (k, r)) roles))
  = if k =? j then roles else [].
Proof.
  destruct (k =? j) eqn:E; induction roles as [|r roles IH];
    cbn [map filter fst]; rewrite ?E; cbn [map snd]; congruence.
Qed.

Lemma roles_of_extends (st st' : Store) (k j : Z) (roles : list Z) :
  execution_command_roles st'
  = execution_command_roles st ++ map (fun r => (k, r)) roles ->
  roles_of st' j = roles_of st j ++ (if k =? j then roles else []).
Proof.
  intros E. unfold roles_of. now rewrite E, filter_app, map_app, roles_of_new_rows.
Qed.

(** One step of the loop of [save] adds one entry to the roles of the plan:
    the roles of the command, each once. *)
Lemma create_commands_roles (st : Store) (self : Execution) (c : TaskCommand) :
  (forall p, In p (execution_command_roles st) ->
             In (fst p) (map ec_id (execution_commands st))) ->
  materialised_roles (_create_execution_commands st self c) (execution_id self)
  = materialised_roles st (execution_id self)
    ++ [(tc_command c,
         roles_of (_create_execution_commands st self c)
                  (ec_id (command_row st self c)))]
  /\ NoDup (roles_of (_create_execution_commands st self c)
                     (ec_id (command_row st self c)))
  /\ (forall r, In r (roles_of (_create_execution_commands st self c)
                               (ec_id (command_row st self c)))
                <-> In r (tc_roles c))
  /\ (forall p, In p (execution_command_roles (_create_execution_commands st self c)) ->
                In (fst p)
                   (map ec_id (execution_commands (_create_execution_commands st self c)))).
Proof.
  intros Hr.
  destruct (create_commands_extends st self c)
    as (units & roles & (E1 & _ & E3 & _) & _ & _ & R1 & R2 & R3).
  set (st' := _create_execution_commands st self c) in *.
  set (row := command_row st self c) in *.
  assert (Hfresh : forall i, In i (map ec_id (execution_commands st)) -> i < ec_id row).
  { intros i Hi. unfold row, command_row. cbn [ec_id]. now apply fresh_id_gt. }
  assert (Hnone : roles_of st (ec_id row) = []).
  { unfold roles_of. rewrite PlanFacts.filter_none; [reflexivity|].
    intros p Hp. apply Z.eqb_neq. apply Hr, Hfresh in Hp. lia. }
  assert (Hnew : roles_of st' (ec_id row) = roles).
  { rewrite (roles_of_extends st st' (ec_id row) (ec_id row) roles E3).
    now rewrite Hnone, Z.eqb_refl. }
  rewrite Hnone in R2, R3. cbn [app] in R2, R3.
  split; [|split; [|split]].
  - unfold materialised_roles, execution_commands_of.
    rewrite E1, filter_app, map_app. cbn [filter ec_execution row command_row].
    rewrite PlanFacts.option_Z_eqb_refl. cbn [map]. f_equal.
    apply map_ext_in. intros r Hin. apply filter_In in Hin as [Hin _]. f_equal.
    rewrite (roles_of_extends st st' (ec_id row) (ec_id r) roles E3).
    assert (ec_id r < ec_id row) by (apply Hfresh; now apply in_map).
    destruct (Z.eqb_spec (ec_id row) (ec_id r)); [lia | apply app_nil_r].
  - rewrite Hnew. apply R3. constructor.
  - rewrite Hnew. intros r. split; [apply R1 | apply R2].
  - intros p Hp. rewrite E3 in Hp. rewrite E1, map_app. apply in_app_iff.
    apply in_app_iff in Hp as [Hold|Hp]; [left; now apply Hr|].
    right. apply in_map_iff in Hp as (r & <- & _). now left.
Qed.

Lemma create_all_commands_roles (self : Execution) (cs : list TaskCommand) :
  forall st done,
    (forall p, In p (execution_command_roles st) ->
               In (fst p) (map ec_id (execution_commands st))) ->
    Forall2 (fun entry c => fst entry = tc_command c
                            /\ NoDup (snd entry)
                            /\ forall r, In r (snd entry) <-> In r (tc_roles c))
            (materialised_roles st (execution_id self)) done ->
    Forall2 (fun entry c => fst entry = tc_command c
                            /\ NoDup (snd entry)
                            /\ forall r, In r (snd entry) <-> In r (tc_roles c))
            (materialised_roles
               (fold_left (fun st command => _create_execution_commands st self command)
                          cs st)
               (execution_id self))
            (done ++ cs).
Proof.
  induction cs as [|c cs IH]; intros st done Hr Hdone; cbn [fold_left].
  - now rewrite app_nil_r.
  - destruct (create_commands_roles st self c Hr) as (Hp & Hnd & Hin & Hr').
    change (done ++ c :: cs) with (done ++ [c] ++ cs). rewrite app_assoc.
    apply IH; [exact Hr'|]. rewrite Hp. apply Forall2_app; [exact Hdone|].
    constructor; [|constructor]. cbn [fst snd]. auto.
Qed.

End RolesFacts.

(** X9.  The first save of an execution freezes the roles of each command:
    the command rows, in rank order, carry the text of their command and
    are related to the roles of that command, each role once. *)
Theorem save_copies_roles (now : Z) (st : Store) (self : Execution) :
  store_consistent st = true ->
  roles_consistent st = true ->
  execution_id self = None ->
  Forall2 (fun entry c => fst entry = tc_command c
                          /\ NoDup (snd entry)
                          /\ forall r, In r (snd entry) <-> In r (tc_roles c))
          (materialised_roles (snd (Execution.save now st self))
             (execution_id (fst (Execution.save now st self))))
          (commands_ordered (execution_task self)).
Proof.
  intros Hc Hr Hid. rewrite SaveLoopFacts.save_unfold. cbn [fst snd].
  rewrite Hid. cbn [pk_truthy].
  unfold Model_save_Execution. rewrite Hid. cbn [fst snd].
  set (self' := set_execution_id self _ now).
  set (st0 := with_executions st _).
  apply (RolesFacts.create_all_commands_roles self'
           (commands_ordered (execution_task self)) st0 []).
  - intros p Hp. unfold st0 in *. cbn in Hp |- *.
    unfold roles_consistent in Hr. rewrite forallb_forall in Hr.
    specialize (Hr p Hp). apply existsb_exists in Hr as (i & Hi & E).
    apply Z.eqb_eq in E. now subst.
  - replace (materialised_roles st0 (execution_id self'))
      with (@nil (text * list Z)); [constructor|].
    unfold materialised_roles, execution_commands_of.
    rewrite PlanFacts.filter_none; [reflexivity|].
    intros ec Hec. unfold st0 in Hec. cbn in Hec.
    destruct (PlanFacts.store_consistent_commands st Hc ec Hec) as (i & Hi & Hin).
    apply MaterialisationFacts.fresh_id_gt in Hin.
    rewrite Hi. unfold self'. cbn [execution_id set_execution_id option_Z_eqb].
    apply Z.eqb_neq. lia.
Qed.

Lemma save_copies_roles_witness :
  materialised_roles
    (snd (Execution.save 5 Sample.with_live_log (Sample.new_execution Sample.production)))
    (Some 2)
  = [ (py "deploy ${gun_task} to ${env}", [1; 2]); (py "backup", [7]) ]
  /\ Forall2 (fun entry c => fst entry = tc_command c
                             /\ NoDup (snd entry)
                             /\ forall r, In r (snd entry) <-> In r (tc_roles c))
             (materialised_roles
                (snd (Execution.save 5 Sample.with_live_log
                        (Sample.new_execution Sample.production)))
                (Some 2))
             [Sample.deploy; Sample.backup].
Proof.
  split; [vm_compute; reflexivity|].
  exact (save_copies_roles 5 Sample.with_live_log
           (Sample.new_execution Sample.production) eq_refl eq_refl eq_refl).
Defined.

(** X10.  At the first save of an execution, the units of each command, in
    rank order of the commands, are on servers of the environment that
    share a role with the command, and every such server has a unit. *)
Theorem units_are_on_the_matching_servers (now : Z) (st : Store) (self : Execution) :
  store_consistent st = true ->
  execution_id self = None ->
  Forall2
    (fun entry c =>
       fst entry = tc_command c
       /\ forall z,
            In z (snd entry)
            <-> exists s,
                  In s (environment_servers (execution_environment self))
                  /\ role_sets_intersect s (tc_roles c) = true
                  /\ server_id s = z)
    (materialised_plan (snd (Execution.save now st self))
       (execution_id (fst (Execution.save now st self))))
    (commands_ordered (execution_task self)).
Proof.
  intros Hc Hid. rewrite (PlanFacts.save_new_materialises now st self Hc Hid).
  induction (commands_ordered (execution_task self)) as [|c cs IH];
    cbn [map]; constructor; [|exact IH].
  split; [reflexivity|]. intros z. cbn [snd]. unfold queried_servers.
  rewrite in_map_iff. split.
  - intros (s & E & Hs). apply QueryFacts.query_yields_matching in Hs.
    apply filter_In in Hs as [Hs Hm]. eauto.
  - intros (s & Hs & Hm & E). exists s. split; [exact E|].
    apply QueryFacts.query_yields_matching. apply filter_In. now split.
Qed.

Lemma units_are_on_the_matching_servers_witness :
  Forall2
    (fun entry c =>
       fst entry = tc_command c
       /\ forall z,
            In z (snd entry)
            <-> exists s,
                  In s (environment_servers Sample.production)
                  /\ role_sets_intersect s (tc_roles c) = true
                  /\ server_id s = z)
    [ (py "deploy ${gun_task} to ${env}", [10; 10; 11]); (py "backup", []) ]
    [Sample.deploy; Sample.backup].
Proof.
  exact (units_are_on_the_matching_servers 5 Sample.with_live_log
           (Sample.new_execution Sample.production) eq_refl eq_refl).
Defined.

(** X11.  Where no server of the environment shares more than one role with
    a command of the task, the first save creates for each command exactly
    one unit per matching server, in the order of the servers. *)
Theorem one_unit_per_server_when_one_shared_role
    (now : Z) (st : Store) (self : Execution) :
  store_consistent st = true ->
  execution_id self = None ->
  (forall c s,
      In c (task_commands (execution_task self)) ->
      In s (environment_servers (execution_environment self)) ->
      (List.length (shared_roles s (tc_roles c)) <= 1)%nat) ->
  materialised_plan (snd (Execution.save now st self))
    (execution_id (fst (Execution.save now st self)))
  = map (fun c =>
           (tc_command c,
            map server_id
                (matching_servers (environment_servers (execution_environment self))
                                  (tc_roles c))))
        (commands_ordered (execution_task self)).
Proof.
  intros Hc Hid Hone. rewrite (PlanFacts.save_new_materialises now st self Hc Hid).
  apply map_ext_in. intros c Hin. apply PlanFacts.commands_ordered_In in Hin.
  unfold queried_servers. rewrite query_rows_when_one_shared_role; [reflexivity|].
  intros s Hs. exact (Hone c s Hin Hs).
Qed.

Lemma one_unit_per_server_when_one_shared_role_witness :
  materialised_plan
    (snd (Execution.save 5 Sample.with_live_log (Sample.new_execution Sample.cluster)))
    (Some 2)
  = [ (py "deploy ${gun_task} to ${env}", [30; 31]); (py "backup", []) ].
Proof.
  refine (one_unit_per_server_when_one_shared_role 5 Sample.with_live_log
            (Sample.new_execution Sample.cluster) eq_refl eq_refl _).
  intros c s Hc Hs. cbn in Hc, Hs.
  destruct Hc as [<-|[<-|[]]]; destruct Hs as [<-|[<-|[<-|[]]]];
    vm_compute; repeat constructor.
Defined.

Lemma get_inline_by_query_newest_four_witness :
  map execution_id (Execution.get_inline_by_query Sample.history Sample.on_production)
  = [Some 6; Some 2; Some 5; Some 4]
  /\ execution_time_created (Sample.execution_at 1 10 Sample.production)
     <= execution_time_created (Sample.execution_at 4 20 Sample.production).
Proof.
  split; [vm_compute; reflexivity|].
  destruct (get_inline_by_query_newest_four Sample.history Sample.on_production)
    as (_ & _ & _ & H & _).
  apply H.
  - vm_compute. left. reflexivity.
  - reflexivity.
  - vm_compute. intros F.
    repeat (destruct F as [F|F]; [discriminate F|]). exact F.
  - vm_compute. do 3 right. left. reflexivity.
Defined.
